(** * Product API (server.js): a shallow embedding and its properties

    The Express application of [server.js] keeps a catalogue of products in
    a module-level array and serves five operations over it.  This file
    embeds the request filters ([authMiddleware], [validateProduct]), the
    five route handlers and the seed data as Rocq functions over an
    explicit store, and proves the properties of the specification.

    Conventions of the embedding.
    - A JavaScript string is a [string]: a sequence of 8-bit code units,
      read as the code points U+0000 to U+00FF.
    - A JSON number is an IEEE-754 double, Rocq's primitive [float].
    - The integers produced by [parseInt] are kept in [Z]; JavaScript
      computes on them exactly below 2^53.
    - A thrown exception is [None] in the option monad; every route handler
      catches it and answers 500, as its [try]/[catch] does.
    - [uuidv4()] is an argument of the create route: the identifier the
      library call returns for that request. *)

From Stdlib Require Import ZArith Lia String Ascii List Floats.
From stdpp Require Import base option list strings.

#[local] Set Warnings "-register-all".

(** ** Strings *)

Module Str.

Definition code (c : ascii) : nat := nat_of_ascii c.

(** White space and line terminators of ECMAScript below U+0100:
    TAB, LF, VT, FF, CR, SPACE and NO-BREAK SPACE. *)
Definition is_space (c : ascii) : bool :=
  let n := code c in
  (((9 <=? n) && (n <=? 13)) || (n =? 32) || (n =? 160))%nat.

(** Upper-case letters below U+0100: A-Z, and U+00C0-U+00DE but U+00D7. *)
Definition is_upper (c : ascii) : bool :=
  let n := code c in
  (((65 <=? n) && (n <=? 90)) ||
   ((192 <=? n) && (n <=? 222) && negb (n =? 215)))%nat.

Definition lower_char (c : ascii) : ascii :=
  if is_upper c then ascii_of_nat (code c + 32)%nat else c.

(** [String.prototype.toLowerCase] *)
Fixpoint toLowerCase (s : string) : string :=
  match s with
  | EmptyString => EmptyString
  | String c s' => String (lower_char c) (toLowerCase s')
  end.

Fixpoint trimStart (s : string) : string :=
  match s with
  | EmptyString => EmptyString
  | String c s' => if is_space c then trimStart s' else s
  end.

Fixpoint trimEnd (s : string) : string :=
  match s with
  | EmptyString => EmptyString
  | String c s' =>
      match trimEnd s' with
      | EmptyString => if is_space c then EmptyString else String c EmptyString
      | r => String c r
      end
  end.

(** [String.prototype.trim] *)
Definition trim (s : string) : string := trimEnd (trimStart s).

(** [String.prototype.includes]: [sub] occurs in [s] as a substring. *)
Fixpoint includes (s sub : string) : bool :=
  String.prefix sub s ||
  match s with
  | EmptyString => false
  | String _ s' => includes s' sub
  end.

(** [String.prototype.split] with a separator of one character. *)
Fixpoint split (sep : ascii) (s : string) : list string :=
  match s with
  | EmptyString => [EmptyString]
  | String c s' =>
      if Ascii.eqb c sep then EmptyString :: split sep s'
      else match split sep s' with
           | piece :: rest => String c piece :: rest
           | [] => [String c EmptyString]
           end
  end.

(** The value of a digit in the given radix, when it is one. *)
Definition digit (radix : Z) (c : ascii) : option Z :=
  let n := Z.of_nat (code c) in
  let v := (if (48 <=? n) && (n <=? 57) then n - 48
            else if (97 <=? n) && (n <=? 102) then n - 87
            else if (65 <=? n) && (n <=? 70) then n - 55
            else 99)%Z in
  if (v <? radix)%Z then Some v else None.

(** The longest prefix of digits, read left to right: [None] when the
    prefix is empty. *)
Fixpoint digits (radix : Z) (acc : option Z) (s : string) : option Z :=
  match s with
  | EmptyString => acc
  | String c s' =>
      match digit radix c with
      | Some d => digits radix (Some (radix * default 0 acc + d)%Z) s'
      | None => acc
      end
  end.

Definition unsigned (s : string) : option Z :=
  match s with
  | String "0" (String "x" s') | String "0" (String "X" s') =>
      digits 16 None s'
  | _ => digits 10 None s
  end.

(** [parseInt(s)] without a radix: leading white space, an optional
    sign, an optional [0x] prefix, then digits.  [None] is [NaN]. *)
Definition parseInt (s : string) : option Z :=
  match trimStart s with
  | String "-" s' => Z.opp <$> unsigned s'
  | String "+" s' => unsigned s'
  | s' => unsigned s'
  end.

(** The character [sep] does not occur in [s]. *)
Fixpoint no_char (sep : ascii) (s : string) : Prop :=
  match s with
  | EmptyString => True
  | String c s' => c ≠ sep ∧ no_char sep s'
  end.

End Str.

(** ** JavaScript values *)

Inductive value : Type :=
  | VUndefined
  | VNull
  | VBool (b : bool)
  | VNum (n : float)
  | VStr (s : string)
  | VArr (items : list value)
  | VObj (fields : list (string * value)).

(** [typeof v] *)
Definition typeof (v : value) : string :=
  match v with
  | VUndefined => "undefined"
  | VNull | VArr _ | VObj _ => "object"
  | VBool _ => "boolean"
  | VNum _ => "number"
  | VStr _ => "string"
  end.

(** ToBoolean: what [!v], [v || w] and [if (v)] test. *)
Definition truthy (v : value) : bool :=
  match v with
  | VUndefined | VNull => false
  | VBool b => b
  | VNum n => negb (PrimFloat.eqb n 0 || PrimFloat.is_nan n)
  | VStr s => negb (String.eqb s "")
  | VArr _ | VObj _ => true
  end.

Definition is_undefined (v : value) : bool :=
  match v with VUndefined => true | _ => false end.

(** [a || b] on values *)
Definition or_else (a b : value) : value := if truthy a then a else b.

(** [v.toLowerCase()]: a TypeError unless [v] is a string. *)
Definition toLowerCase (v : value) : option string :=
  match v with VStr s => Some (Str.toLowerCase s) | _ => None end.

(** [v.trim()]: a TypeError unless [v] is a string. *)
Definition trim (v : value) : option string :=
  match v with VStr s => Some (Str.trim s) | _ => None end.

(** [v < 0].  The comparison is embedded on numbers; both of its uses sit
    behind a [typeof v !== 'number'] test. *)
Definition lt_zero (v : value) : bool :=
  match v with VNum n => PrimFloat.ltb n 0 | _ => false end.

(** ** Requests and responses *)

(** [req.body] after [bodyParser.json()], as the handlers read it: the five
    properties they destructure; a missing property is [VUndefined]. *)
Record Body := {
  body_name : value;
  body_description : value;
  body_price : value;
  body_category : value;
  body_inStock : value
}.

(** [req.query]: each parameter a string, or missing.  A repeated or
    bracketed key, which Express delivers as an array or an object, is
    outside the embedding: on such a [search] or [category] the call of
    [toLowerCase] throws. *)
Record Query := {
  query_search : option string;
  query_category : option string;
  query_inStock : option string;
  query_page : option string;
  query_limit : option string
}.

Record Request := {
  headers_authorization : option string;
  params_id : string;
  body : Body;
  query : Query
}.

Record Product := {
  id : string;
  name : value;
  description : value;
  price : value;
  category : value;
  inStock : value
}.

Record PageLink := { link_page : Z; link_limit : Z }.

(** The object the list route builds in [result]. *)
Record Listing := {
  next : option PageLink;
  previous : option PageLink;
  products : list Product;
  total : nat;
  page : Z;
  limit : Z
}.

Inductive Json : Type :=
  | JError (error : string)
  | JProduct (product : Product)
  | JDeleted (message : string) (product : Product)
  | JListing (result : Listing).

Record Response := { status : nat; json : Json }.

(** What a middleware does with a request: call [next()], answer it, or
    throw. *)
Inductive Outcome : Type :=
  | Next (req : Request)
  | Reply (res : Response)
  | Throw.

(** ** The filters *)

Definition secret : string := "secret-token".

(** [authHeader && authHeader.split(' ')[1]] *)
Definition bearer (authHeader : option string) : option string :=
  match authHeader with
  | None => None
  | Some h => if String.eqb h "" then Some "" else Str.split " " h !! 1%nat
  end.

Definition authMiddleware (req : Request) : Outcome :=
  let token := bearer (headers_authorization req) in
  if bool_decide (token = Some secret) then Next req
  else Reply {| status := 401;
                json := JError "Unauthorized: Invalid or missing token" |}.

(** [!v || typeof v !== 'string' || v.trim() === ''], left to right: the
    call of [trim] is reached only when the two tests before it are false. *)
Definition blank (v : value) : option bool :=
  if negb (truthy v) then Some true
  else if negb (String.eqb (typeof v) "string") then Some true
  else s ← trim v; Some (String.eqb s "").

(** [price === undefined || typeof price !== 'number' || price < 0] *)
Definition bad_price (v : value) : bool :=
  is_undefined v || negb (String.eqb (typeof v) "number") || lt_zero v.

Definition bad_request (msg : string) : Outcome :=
  Reply {| status := 400; json := JError msg |}.

Definition name_message : string :=
  "Name is required and must be a non-empty string".
Definition price_message : string :=
  "Price is required and must be a non-negative number".
Definition category_message : string :=
  "Category is required and must be a non-empty string".

Definition validateProduct (req : Request) : Outcome :=
  let name := body_name (body req) in
  let price := body_price (body req) in
  let category := body_category (body req) in
  match blank name with
  | None => Throw
  | Some true => bad_request name_message
  | Some false =>
      if bad_price price then bad_request price_message
      else match blank category with
           | None => Throw
           | Some true => bad_request category_message
           | Some false => Next req
           end
  end.

(** [loggingMiddleware] writes a line to the console and calls [next()]. *)
Definition loggingMiddleware (req : Request) : Outcome := Next req.

(** [errorHandler]: the answer to an exception no handler caught. *)
Definition errorHandler : Response :=
  {| status := 500; json := JError "Something went wrong!" |}.

(** ** Arrays *)

Module Array.
Section Array.
Context {A : Type}.

(** [l.find(f)] for a callback that may throw: the callback runs on the
    elements in order, up to the first one it accepts. *)
Fixpoint find (f : A → option bool) (l : list A) : option (option A) :=
  match l with
  | [] => Some None
  | x :: l' => b ← f x; if b : bool then Some (Some x) else find f l'
  end.

(** [l.filter(f)] for a callback that may throw. *)
Fixpoint filter (f : A → option bool) (l : list A) : option (list A) :=
  match l with
  | [] => Some []
  | x :: l' =>
      b ← f x; r ← filter f l'; Some (if b : bool then x :: r else r)
  end.

(** [l.findIndex(x => P x)]; [None] is -1. *)
Definition findIndex (P : A → Prop) `{!∀ x, Decision (P x)}
    (l : list A) : option nat :=
  fst <$> list_find P l.

(** An index argument of [slice], made relative to the end when it is
    negative and clamped to the array. *)
Definition relative (len : nat) (i : Z) : nat :=
  Z.to_nat (if (i <? 0)%Z then Z.max (Z.of_nat len + i) 0
            else Z.min i (Z.of_nat len)).

(** [l.slice(start, end)] *)
Definition slice (l : list A) (start end_ : Z) : list A :=
  let k := relative (length l) start in
  let final := relative (length l) end_ in
  take (final - k) (drop k l).

End Array.
End Array.

(** ** The store *)

Definition seed : list Product := [
{| id := "1"; name := VStr "Laptop";
   description := VStr "High-performance laptop with 16GB RAM";
   price := VNum 1200; category := VStr "electronics";
   inStock := VBool true |};
{| id := "2"; name := VStr "Smartphone";
   description := VStr "Latest model with 128GB storage";
   price := VNum 800; category := VStr "electronics";
   inStock := VBool true |};
{| id := "3"; name := VStr "Coffee Maker";
   description := VStr "Programmable coffee maker with timer";
   price := VNum 50; category := VStr "kitchen";
   inStock := VBool false |}
].

(** A handler body runs inside [try]; [catch] answers 500 and the store is
  as it was, every throwing expression being evaluated before the store
  is written. *)
Definition try_catch (store : list Product) (msg : string)
  (r : option (list Product * Response)) : list Product * Response :=
default (store, {| status := 500; json := JError msg |}) r.

Definition not_found : Response :=
{| status := 404; json := JError "Product not found" |}.

Definition conflict : Response :=
{| status := 409; json := JError "Product with this name already exists" |}.

(** ** GET /api/products *)

(** The callback of the search filter. *)
Definition search_callback (search : string) (product : Product)
  : option bool :=
n ← toLowerCase (name product);
if Str.includes n (Str.toLowerCase search) then Some true
else d ← toLowerCase (description product);
     Some (Str.includes d (Str.toLowerCase search)).

(** The callback of the category filter. *)
Definition category_callback (wanted : string) (product : Product)
  : option bool :=
c ← toLowerCase (category product);
Some (bool_decide (c = Str.toLowerCase wanted)).

(** [product.inStock === stockValue] *)
Definition stock_callback (stockValue : bool) (product : Product)
  : option bool :=
Some match inStock product with
     | VBool b => bool_decide (b = stockValue)
     | _ => false
     end.

(** [if (param) { l = l.filter(callback(param)) }] for a query parameter:
  the filter runs when the parameter is a non-empty string. *)
Definition filter_if (param : option string)
  (callback : string → Product → option bool) (l : list Product)
  : option (list Product) :=
match param with
| Some s => if String.eqb s "" then Some l else Array.filter (callback s) l
| None => Some l
end.

(** [filteredProducts] after the three filters. *)
Definition filtered (store : list Product) (q : Query)
  : option (list Product) :=
l1 ← filter_if (query_search q) search_callback store;
l2 ← filter_if (query_category q) category_callback l1;
match query_inStock q with
| Some s => Array.filter (stock_callback (String.eqb s "true")) l2
| None => Some l2
end.

(** [parseInt(param) || dflt] *)
Definition parse_or (param : option string) (dflt : Z) : Z :=
match param ≫= Str.parseInt with
| Some n => if (n =? 0)%Z then dflt else n
| None => dflt
end.

Definition page_of (q : Query) : Z := parse_or (query_page q) 1.
Definition limit_of (q : Query) : Z := parse_or (query_limit q) 10.
Definition startIndex (q : Query) : Z := ((page_of q - 1) * limit_of q)%Z.
Definition endIndex (q : Query) : Z := (page_of q * limit_of q)%Z.

Definition paginate (filteredProducts : list Product) (q : Query) : Listing :=
{| next :=
     if (endIndex q <? Z.of_nat (length filteredProducts))%Z
     then Some {| link_page := page_of q + 1; link_limit := limit_of q |}
     else None;
   previous :=
     if (0 <? startIndex q)%Z
     then Some {| link_page := page_of q - 1; link_limit := limit_of q |}
     else None;
   products := Array.slice filteredProducts (startIndex q) (endIndex q);
   total := length filteredProducts;
   page := page_of q;
   limit := limit_of q |}.

Definition listHandler (store : list Product) (req : Request) : Response :=
match filtered store (query req) with
| Some filteredProducts =>
    {| status := 200; json := JListing (paginate filteredProducts (query req)) |}
| None => {| status := 500; json := JError "Failed to retrieve products" |}
end.

(** ** GET /api/products/:id *)

Definition getHandler (store : list Product) (req : Request) : Response :=
match snd <$> list_find (λ p, id p = params_id req) store with
| Some product => {| status := 200; json := JProduct product |}
| None => not_found
end.

(** ** POST /api/products *)

(** [p.name.toLowerCase() === name.toLowerCase()] *)
Definition same_name (name' : value) (p : Product) : option bool :=
a ← toLowerCase (name p); b ← toLowerCase name'; Some (bool_decide (a = b)).

(** The record the handler builds in [newProduct]. *)
Definition newProduct (uuid : string) (b : Body) : Product :=
  {| id := uuid;
     name := body_name b;
     description := or_else (body_description b) (VStr "");
     price := body_price b;
     category := body_category b;
     inStock := if is_undefined (body_inStock b) then VBool true
                else body_inStock b |}.

Definition createHandler (uuid : string) (store : list Product)
    (req : Request) : list Product * Response :=
  try_catch store "Failed to create product" (
    existingProduct ← Array.find (same_name (body_name (body req))) store;
    match existingProduct with
    | Some _ => Some (store, conflict)
    | None =>
        Some ((store ++ [newProduct uuid (body req)])%list,
              {| status := 201;
                 json := JProduct (newProduct uuid (body req)) |})
    end).

(** ** PUT /api/products/:id *)

(** [p.name.toLowerCase() === name.toLowerCase() && p.id !== productId] *)
Definition same_name_other (name' : value) (productId : string)
  (p : Product) : option bool :=
same ← same_name name' p;
Some (same && negb (bool_decide (id p = productId))).

(** The record the handler builds in [updatedProduct]; [old] is
    [products[productIndex]], which exists, [productIndex] being what
    [findIndex] returned. *)
Definition updatedProduct (productId : string) (b : Body) (old : Product)
    : Product :=
  {| id := productId;
     name := body_name b;
     description := or_else (body_description b) (VStr "");
     price := body_price b;
     category := body_category b;
     inStock := if is_undefined (body_inStock b) then inStock old
                else body_inStock b |}.

Definition updateHandler (store : list Product) (req : Request)
    : list Product * Response :=
  let productId := params_id req in
  try_catch store "Failed to update product" (
    match Array.findIndex (λ p, id p = productId) store with
    | None => Some (store, not_found)
    | Some productIndex =>
        existingProduct ←
          Array.find (same_name_other (body_name (body req)) productId) store;
        match existingProduct with
        | Some _ => Some (store, conflict)
        | None =>
            old ← store !! productIndex;
            Some (<[productIndex := updatedProduct productId (body req) old]>
                    store,
                  {| status := 200;
                     json := JProduct
                               (updatedProduct productId (body req) old) |})
        end
    end).

(** ** DELETE /api/products/:id *)

Definition deleteHandler (store : list Product) (req : Request)
  : list Product * Response :=
try_catch store "Failed to delete product" (
  match Array.findIndex (λ p, id p = params_id req) store with
  | None => Some (store, not_found)
  | Some productIndex =>
      deletedProduct ← store !! productIndex;
      Some (delete productIndex store,
            {| status := 200;
               json := JDeleted "Product deleted successfully" deletedProduct |})
  end).

(** ** Routes *)

(** The middleware of a route in order, then its handler: each middleware
    either hands the request on or ends the request; an exception it throws
    reaches [errorHandler].  [bodyParser.json()] has run before and made
    [req.body]; a request whose body it rejects does not reach the route:
    Express hands the parser's error to [errorHandler]. *)
Fixpoint route (chain : list (Request → Outcome))
  (handler : Request → list Product * Response)
  (store : list Product) (req : Request) : list Product * Response :=
match chain with
| [] => handler req
| m :: chain' =>
    match m req with
    | Next req' => route chain' handler store req'
    | Reply res => (store, res)
    | Throw => (store, errorHandler)
    end
end.

Definition GET_products (store : list Product) (req : Request) :=
route [loggingMiddleware] (λ r, (store, listHandler store r)) store req.

Definition GET_product (store : list Product) (req : Request) :=
route [loggingMiddleware] (λ r, (store, getHandler store r)) store req.

Definition POST_product (uuid : string) (store : list Product)
  (req : Request) :=
route [loggingMiddleware; authMiddleware; validateProduct]
      (createHandler uuid store) store req.

Definition PUT_product (store : list Product) (req : Request) :=
route [loggingMiddleware; authMiddleware; validateProduct]
      (updateHandler store) store req.

Definition DELETE_product (store : list Product) (req : Request) :=
route [loggingMiddleware; authMiddleware] (deleteHandler store) store req.

(** ** Reachable stores *)

(** A request that may write the store.  [Create] carries the identifier
  that [uuidv4()] returns while the request is served. *)
Inductive Call : Type :=
| Create (uuid : string) (req : Request)
| Update (req : Request)
| Delete (req : Request).

Definition serve (store : list Product) (c : Call) : list Product * Response :=
match c with
| Create uuid req => POST_product uuid store req
| Update req => PUT_product store req
| Delete req => DELETE_product store req
end.

(** [uuidv4()] returns an identifier no stored product has. *)
Definition fresh (store : list Product) (c : Call) : Prop :=
match c with
| Create uuid _ => uuid ∉ id <$> store
| _ => True
end.

Inductive reachable : list Product → Prop :=
| reachable_seed : reachable seed
| reachable_serve store c :
    reachable store → fresh store c → reachable (serve store c).1.

(** ** The filters as the specification words them *)

(** The header has the form [Bearer <token>]. *)
Definition bearer_form (h token : string) : Prop := h = "Bearer " +:+ token.

(** The header is absent, is malformed, or carries a token other than the
    secret. *)
Definition must_reject (authHeader : option string) : Prop :=
  match authHeader with
  | None => True
  | Some h =>
      (¬ ∃ token, bearer_form h token) ∨
      (∃ token, bearer_form h token ∧ token ≠ secret)
  end.

(** The 401 answer of [authMiddleware]. *)
Definition unauthorized : Outcome :=
  Reply {| status := 401;
           json := JError "Unauthorized: Invalid or missing token" |}.


(** The response a filter sends when it ends the request. *)
Definition answer (res : Outcome) : Response :=
  match res with Reply r => r | _ => errorHandler end.

(** The header carries the secret as its second field: a first field
    without a space (any scheme word, or none), one space, the secret, and
    then nothing or a space and anything. *)
Definition carries_secret (authHeader : option string) : Prop :=
  ∃ scheme rest,
    Str.no_char " " scheme ∧
    authHeader = Some (scheme +:+ " " +:+ secret +:+ rest) ∧
    (rest = "" ∨ ∃ r, rest = String " " r).

(** Present, a string, and non-empty after trimming. *)
Definition nonblank_string (v : value) : bool :=
  match v with
  | VStr s => negb (String.eqb (Str.trim s) "")
  | _ => false
  end.

(** Present, a number, and >= 0. *)
Definition nonneg_number (v : value) : bool :=
  match v with
  | VNum n => PrimFloat.leb 0 n
  | _ => false
  end.

(** A number that JSON text can denote: any double but NaN. *)
Definition json_number (v : value) : Prop :=
  match v with
  | VNum n => PrimFloat.is_nan n = false
  | _ => True
  end.

(** ** Sample requests *)

Definition no_body : Body :=
  {| body_name := VUndefined; body_description := VUndefined;
     body_price := VUndefined; body_category := VUndefined;
     body_inStock := VUndefined |}.

Definition no_query : Query :=
  {| query_search := None; query_category := None; query_inStock := None;
     query_page := None; query_limit := None |}.

(** A request with the given Authorization header, path id and body. *)
Definition request (authHeader : option string) (productId : string)
    (b : Body) : Request :=
  {| headers_authorization := authHeader; params_id := productId;
     body := b; query := no_query |}.

(** A request with the given query string. *)
Definition request_query (q : Query) : Request :=
  {| headers_authorization := None; params_id := ""; body := no_body;
     query := q |}.

Definition bearer_secret_token : option string := Some "Bearer secret-token".

(** ** The store invariant *)

(** The lower-cased name of a product, when its name is a string. *)
Definition lower_name (p : Product) : option string := toLowerCase (name p).

(** Two names are equal case-insensitively. *)
Definition same_name_ci (a b : value) : Prop :=
  ∃ s t, a = VStr s ∧ b = VStr t ∧ Str.toLowerCase s = Str.toLowerCase t.

(** No two products of the store have names equal case-insensitively. *)
Definition unique_names (store : list Product) : Prop :=
  ∀ i j p q, store !! i = Some p → store !! j = Some q → i ≠ j →
             ¬ same_name_ci (name p) (name q).

(** What the operations keep true of the store: identifiers are pairwise
    different, names are strings, and lower-cased names are pairwise
    different. *)
Record store_ok (store : list Product) : Prop := {
  ok_ids : NoDup (id <$> store);
  ok_strings : Forall (λ p, is_Some (lower_name p)) store;
  ok_names : NoDup (lower_name <$> store)
}.

(** ** The list operation as the specification words it *)

(** The elements of [l] at the indices [i], counted from [i0], that lie in
    the half-open range [a <= i < b]. *)
Fixpoint range_from {A} (i0 a b : Z) (l : list A) : list A :=
  match l with
  | [] => []
  | x :: l' =>
      (if (a <=? i0)%Z && (i0 <? b)%Z then [x] else []) ++
      range_from (i0 + 1) a b l'
  end.

(** [l] sliced to the half-open range [a, b). *)
Definition range {A} (l : list A) (a b : Z) : list A := range_from 0 a b l.

(** An index of a slice as JavaScript reads it: a negative index counts
    from the end of the array, and stops at its start. *)
Definition from_end (len : nat) (i : Z) : Z :=
  if (i <? 0)%Z then Z.max (Z.of_nat len + i) 0 else i.

(** An integer JavaScript computes with exactly: below 2^53 in magnitude,
    so that the integer, its predecessor and its successor are doubles.
    [parseInt] returns such an integer as it is written, and [page - 1]
    and [page + 1] are then the integers next to it. *)
Definition safe_integer (n : Z) : Prop := (Z.abs n < 2 ^ 53)%Z.

(** A filter of the list operation lets a product through: its parameter
    is missing or empty, or its callback accepts the product. *)
Definition passes_if (param : option string)
    (callback : string → Product → option bool) (p : Product) : bool :=
  match param with
  | Some s => String.eqb s "" || bool_decide (callback s p = Some true)
  | None => true
  end.

Definition passes_stock (q : Query) (p : Product) : bool :=
  match query_inStock q with
  | Some s => bool_decide (stock_callback (String.eqb s "true") p = Some true)
  | None => true
  end.

(** The three filters, joined by AND. *)
Definition passes (q : Query) (p : Product) : bool :=
  passes_if (query_search q) search_callback p &&
  passes_if (query_category q) category_callback p &&
  passes_stock q p.

(** The name, description and category of the product are strings. *)
Definition text_product (p : Product) : Prop :=
  is_Some (toLowerCase (name p)) ∧ is_Some (toLowerCase (description p)) ∧
  is_Some (toLowerCase (category p)).

(** The request with another [page], or another [limit], parameter. *)
Definition set_page (req : Request) (v : option string) : Request :=
  {| headers_authorization := headers_authorization req;
     params_id := params_id req; body := body req;
     query := {| query_search := query_search (query req);
                 query_category := query_category (query req);
                 query_inStock := query_inStock (query req);
                 query_page := v;
                 query_limit := query_limit (query req) |} |}.

Definition set_limit (req : Request) (v : option string) : Request :=
  {| headers_authorization := headers_authorization req;
     params_id := params_id req; body := body req;
     query := {| query_search := query_search (query req);
                 query_category := query_category (query req);
                 query_inStock := query_inStock (query req);
                 query_page := query_page (query req);
                 query_limit := v |} |}.

(** ** Reading and writing one product *)

(** The identifier a write is about: the generated one for a create, the
    path id for an update or a delete. *)
Definition target (c : Call) : string :=
  match c with
  | Create uuid _ => uuid
  | Update req | Delete req => params_id req
  end.

(** A product as [validateProduct] lets it in: a name and a category that
    are strings, not blank, and a price that is a number, not below zero. *)
Definition valid_product (p : Product) : Prop :=
  nonblank_string (name p) = true ∧ bad_price (price p) = false ∧
  nonblank_string (category p) = true.

(** * Properties *)

(** ** Strings *)

Lemma app_empty_r (s : string) : s +:+ "" = s.
Proof.
  induction s as [|c s IH]; [done|].
  change (String c (s +:+ "") = String c s). by rewrite IH.
Qed.

Section Split.
Variable sep : ascii.

Lemma split_no_char a : Str.no_char sep a → Str.split sep a = [a].
Proof.
  induction a as [|c a IH]; simpl; [done|].
  intros [Hc Ha]. rewrite (IH Ha).
  destruct (Ascii.eqb_spec c sep); [done|done].
Qed.

Lemma split_app a r :
  Str.no_char sep a →
  Str.split sep (a +:+ String sep r) = a :: Str.split sep r.
Proof.
  induction a as [|c a IH]; simpl.
  - intros _. by rewrite Ascii.eqb_refl.
  - intros [Hc Ha]. rewrite (IH Ha).
    by destruct (Ascii.eqb_spec c sep).
Qed.

Lemma split_cases s :
  Str.no_char sep s ∨ ∃ a r, Str.no_char sep a ∧ s = a +:+ String sep r.
Proof.
  induction s as [|c s IH]; [by left|].
  destruct (Ascii.eqb_spec c sep) as [->|Hc].
  - right. by exists "", s.
  - destruct IH as [Hs|(a & r & Ha & ->)].
    + by left.
    + right. by exists (String c a), r.
Qed.

Lemma split_head r t :
  head (Str.split sep r) = Some t ↔
  Str.no_char sep t ∧ (r = t ∨ ∃ r', r = t +:+ String sep r').
Proof.
  split.
  - destruct (split_cases r) as [Hr|(a & r' & Ha & ->)].
    + rewrite split_no_char by done. simpl. intros [= <-]. eauto.
    + rewrite split_app by done. simpl. intros [= <-]. eauto.
  - intros [Ht [->|[r' ->]]].
    + by rewrite split_no_char.
    + by rewrite split_app.
Qed.

Lemma split_second s t :
  Str.split sep s !! 1%nat = Some t ↔
  ∃ a rest, Str.no_char sep a ∧ Str.no_char sep t ∧
            s = a +:+ String sep (t +:+ rest) ∧
            (rest = "" ∨ ∃ r, rest = String sep r).
Proof.
  split.
  - destruct (split_cases s) as [Hs|(a & r & Ha & ->)].
    + by rewrite split_no_char.
    + rewrite split_app by done. simpl. rewrite <- head_lookup.
      intros (Ht & [->|[r' ->]])%split_head.
      * exists a, "". rewrite app_empty_r. eauto.
      * exists a, (String sep r'). eauto 10.
  - intros (a & rest & Ha & Ht & -> & Hrest).
    rewrite split_app by done. simpl. rewrite <- head_lookup.
    apply split_head. split; [done|].
    destruct Hrest as [->|[r ->]]; [left|right; eauto].
    by rewrite app_empty_r.
Qed.
End Split.

(** ** The auth filter *)

Lemma authMiddleware_cases req :
  authMiddleware req = Next req ∨ authMiddleware req = unauthorized.
Proof. unfold authMiddleware. case_bool_decide; auto. Qed.

Lemma bearer_secret authHeader :
  bearer authHeader = Some secret ↔ carries_secret authHeader.
Proof.
  unfold carries_secret. destruct authHeader as [h|]; simpl.
  - destruct (String.eqb_spec h "") as [->|Hh].
    + split; [done|]. intros (scheme & rest & _ & [= H] & _).
      by destruct scheme.
    + rewrite split_second. split.
      * intros (a & rest & Ha & _ & -> & Hrest). exists a, rest. eauto.
      * intros (a & rest & Ha & [= ->] & Hrest). exists a, rest.
        split_and!; done.
  - split; [done|]. by intros (? & ? & _ & [=] & _).
Qed.

(** C4, as stated, fails on the header [Basic secret-token]: it is not of
    the form [Bearer <token>], so the claim has the filter answer 401, and
    the filter passes the request on. *)
Lemma auth_scheme_not_checked :
  let req := request (Some "Basic secret-token") "" no_body in
  ¬ (authMiddleware req = unauthorized ↔
     must_reject (headers_authorization req)).
Proof.
  intros req [_ H]. assert (authMiddleware req = unauthorized) as [=].
  apply H. left. intros [token [=]].
Qed.

(** C4, amended: the filter passes the request on, unchanged, exactly when
    the Authorization header carries the secret as its second
    space-separated field, whatever the first field is; in every other case
    (no header, an empty header, another second field) it answers 401. *)
Theorem authMiddleware_spec req :
  (authMiddleware req = Next req ↔
   carries_secret (headers_authorization req)) ∧
  (authMiddleware req = unauthorized ↔
   ¬ carries_secret (headers_authorization req)).
Proof.
  rewrite <- bearer_secret. unfold authMiddleware, unauthorized.
  case_bool_decide as Htoken; split; split; done.
Qed.

(** ** The validation filter *)

Lemma lt_zero_leb n :
  PrimFloat.is_nan n = false →
  PrimFloat.ltb n 0 = negb (PrimFloat.leb 0 n).
Proof.
  unfold PrimFloat.is_nan.
  rewrite ltb_spec. rewrite leb_spec. rewrite FloatAxioms.eqb_spec.
  change (Prim2SF 0) with (S754_zero false).
  destruct (Prim2SF n) as [s|s| |s m e]; try destruct s; try done.
  all: unfold SFeqb, SFltb, SFleb; cbn.
  all: rewrite ?Pos.compare_refl, ?Z.compare_refl; done.
Qed.

Lemma blank_spec v : blank v = Some (negb (nonblank_string v)).
Proof.
  destruct v as [| |[]|n|s| |]; try done.
  - unfold blank. simpl. by destruct (negb _).
  - unfold blank; simpl.
    destruct (String.eqb_spec s "") as [->|]; [done|].
    simpl. by rewrite negb_involutive.
Qed.

Lemma bad_price_spec v :
  json_number v → bad_price v = negb (nonneg_number v).
Proof.
  destruct v as [| |[]|n|s| |]; try done.
  simpl. intros Hn. unfold bad_price. simpl. by apply lt_zero_leb.
Qed.

(** C6: on every payload (its price, when a number, one that JSON can
    denote), [validateProduct] checks the name, then the price, then the
    category: the name must be present, a string and not blank after
    trimming, the price present, a number and >= 0, the category present,
    a string and not blank after trimming.  The first check that fails
    answers 400 with the message of its field, written out below; a
    payload that passes the three checks is handed on as it came. *)
Theorem validateProduct_spec req :
  json_number (body_price (body req)) →
  validateProduct req =
    if negb (nonblank_string (body_name (body req)))
    then Reply {| status := 400;
                  json := JError
                    "Name is required and must be a non-empty string" |}
    else if negb (nonneg_number (body_price (body req)))
    then Reply {| status := 400;
                  json := JError
                    "Price is required and must be a non-negative number" |}
    else if negb (nonblank_string (body_category (body req)))
    then Reply {| status := 400;
                  json := JError
                    "Category is required and must be a non-empty string" |}
    else Next req.
Proof.
  intros Hprice. unfold validateProduct.
  rewrite !blank_spec, bad_price_spec by done.
  destruct (nonblank_string (body_name (body req))); [|done].
  destruct (nonneg_number (body_price (body req))); [|done].
  by destruct (nonblank_string (body_category (body req))).
Qed.

Lemma validateProduct_spec_witness :
  let req := request bearer_secret_token ""
               {| body_name := VStr "Kettle"; body_description := VUndefined;
                  body_price := VNum (-5); body_category := VStr "kitchen";
                  body_inStock := VUndefined |} in
  json_number (body_price (body req)) ∧
  validateProduct req =
    Reply {| status := 400;
             json := JError
               "Price is required and must be a non-negative number" |}.
Proof.
  intros req. split; [reflexivity|].
  rewrite (validateProduct_spec req); reflexivity.
Defined.

(** ** Arrays *)

Section ArrayFacts.
Context {A : Type} (f : A → option bool).

Lemma find_total l :
  Forall (λ x, is_Some (f x)) l → is_Some (Array.find f l).
Proof.
  induction 1 as [|x l [b Hb] _ IH]; simpl; [by eexists|].
  rewrite Hb. simpl. by destruct b.
Qed.

Lemma find_None l :
  Array.find f l = Some None ↔ Forall (λ x, f x = Some false) l.
Proof.
  induction l as [|x l IH]; simpl.
  - split; [constructor|done].
  - rewrite Forall_cons, <- IH.
    destruct (f x) as [[]|]; simpl; split; try done.
    + by intros [[=] _].
    + by intros [_ ?].
    + by intros [[=] _].
Qed.

Lemma find_Some l x :
  Array.find f l = Some (Some x) → x ∈ l ∧ f x = Some true.
Proof.
  induction l as [|y l IH]; simpl; [done|].
  destruct (f y) as [[]|] eqn:Hy; simpl; try done.
  - intros [= ->]. split; [left|done].
  - intros [Hx ?]%IH. split; [by right|done].
Qed.

Lemma filter_total l :
  Forall (λ x, is_Some (f x)) l → is_Some (Array.filter f l).
Proof.
  induction 1 as [|x l [b Hb] _ [r Hr]]; simpl; [by eexists|].
  rewrite Hb, Hr. by eexists.
Qed.

Lemma filter_Some l r :
  Array.filter f l = Some r → r = filter (λ x, f x = Some true) l.
Proof.
  revert r. induction l as [|x l IH]; simpl; intros r.
  - by intros [= <-].
  - destruct (f x) as [b|] eqn:Hx; simpl; [|done].
    destruct (Array.filter f l) as [r'|]; simpl; [|done].
    intros [= <-]. rewrite (IH r' eq_refl).
    destruct b.
    + by rewrite filter_cons_True.
    + by rewrite filter_cons_False by congruence.
Qed.
End ArrayFacts.

Lemma findIndex_Some {A} (P : A → Prop) `{!∀ x, Decision (P x)} l i :
  Array.findIndex P l = Some i ↔
  ∃ x, l !! i = Some x ∧ P x ∧ ∀ j y, l !! j = Some y → (j < i)%nat → ¬ P y.
Proof.
  unfold Array.findIndex. split.
  - destruct (list_find P l) as [[i' x]|] eqn:Hfind; [|done].
    intros [= <-]. apply list_find_Some in Hfind. eauto.
  - intros (x & Hx). apply (list_find_Some P) in Hx. by rewrite Hx.
Qed.

Lemma findIndex_None {A} (P : A → Prop) `{!∀ x, Decision (P x)} l :
  Array.findIndex P l = None ↔ Forall (λ x, ¬ P x) l.
Proof.
  unfold Array.findIndex. rewrite fmap_None. apply list_find_None.
Qed.

Lemma NoDup_fmap_insert {A B} (g : A → B) (l : list A) i x :
  NoDup (g <$> l) → (i < length l)%nat →
  (∀ j y, l !! j = Some y → j ≠ i → g y ≠ g x) →
  NoDup (g <$> <[i:=x]> l).
Proof.
  intros Hl Hi Hx. apply NoDup_alt. intros j k b.
  rewrite !list_lookup_fmap.
  destruct (decide (j = i)) as [->|Hj], (decide (k = i)) as [->|Hk]; try done.
  - rewrite list_lookup_insert_eq by done.
    rewrite list_lookup_insert_ne by done. simpl. intros [= <-].
    destruct (l !! k) as [y|] eqn:Hy; simpl; [|done].
    intros [= Hg]. by destruct (Hx k y).
  - rewrite (list_lookup_insert_eq l i) by done.
    rewrite list_lookup_insert_ne by done. simpl.
    destruct (l !! j) as [y|] eqn:Hy; simpl; [|done].
    intros [= <-] [= Hg]. by destruct (Hx j y).
  - rewrite !list_lookup_insert_ne by done.
    rewrite <- !list_lookup_fmap. by apply NoDup_lookup.
Qed.

(** ** Routes *)

Lemma validateProduct_cases req :
  validateProduct req = Next req ∨ ∃ msg, validateProduct req = bad_request msg.
Proof.
  unfold validateProduct. rewrite !blank_spec.
  destruct (nonblank_string (body_name _)); simpl; [|by eauto].
  destruct (bad_price _); [by eauto|].
  destruct (nonblank_string (body_category _)); simpl; eauto.
Qed.

Lemma validated_name req :
  validateProduct req = Next req → ∃ s, body_name (body req) = VStr s.
Proof.
  unfold validateProduct. rewrite blank_spec.
  destruct (body_name (body req)); try done. eauto.
Qed.

Lemma POST_product_pass uuid store req :
  authMiddleware req = Next req → validateProduct req = Next req →
  POST_product uuid store req = createHandler uuid store req.
Proof. intros Ha Hv. unfold POST_product. simpl. by rewrite Ha, Hv. Qed.

Lemma PUT_product_pass store req :
  authMiddleware req = Next req → validateProduct req = Next req →
  PUT_product store req = updateHandler store req.
Proof. intros Ha Hv. unfold PUT_product. simpl. by rewrite Ha, Hv. Qed.

Lemma DELETE_product_pass store req :
  authMiddleware req = Next req →
  DELETE_product store req = deleteHandler store req.
Proof. intros Ha. unfold DELETE_product. simpl. by rewrite Ha. Qed.

(** A request is stopped by the auth filter with 401, or by the validation
    filter with 400, or reaches the handler. *)

Lemma POST_product_cases uuid store req :
  (authMiddleware req = unauthorized ∧
   POST_product uuid store req = (store, answer unauthorized)) ∨
  (authMiddleware req = Next req ∧
   ∃ msg, validateProduct req = bad_request msg ∧
          POST_product uuid store req = (store, answer (bad_request msg))) ∨
  (authMiddleware req = Next req ∧ validateProduct req = Next req ∧
   POST_product uuid store req = createHandler uuid store req).
Proof.
  unfold POST_product. simpl.
  destruct (authMiddleware_cases req) as [Ha|Ha]; rewrite Ha; [|by left].
  right.
  destruct (validateProduct_cases req) as [Hv|[msg Hv]]; rewrite Hv; eauto.
Qed.

Lemma PUT_product_cases store req :
  (authMiddleware req = unauthorized ∧
   PUT_product store req = (store, answer unauthorized)) ∨
  (authMiddleware req = Next req ∧
   ∃ msg, validateProduct req = bad_request msg ∧
          PUT_product store req = (store, answer (bad_request msg))) ∨
  (authMiddleware req = Next req ∧ validateProduct req = Next req ∧
   PUT_product store req = updateHandler store req).
Proof.
  unfold PUT_product. simpl.
  destruct (authMiddleware_cases req) as [Ha|Ha]; rewrite Ha; [|by left].
  right.
  destruct (validateProduct_cases req) as [Hv|[msg Hv]]; rewrite Hv; eauto.
Qed.

Lemma DELETE_product_cases store req :
  (authMiddleware req = unauthorized ∧
   DELETE_product store req = (store, answer unauthorized)) ∨
  (authMiddleware req = Next req ∧
   DELETE_product store req = deleteHandler store req).
Proof.
  unfold DELETE_product. simpl.
  destruct (authMiddleware_cases req) as [Ha|Ha]; rewrite Ha; eauto.
Qed.

(** ** Names *)

Lemma same_name_ci_lower p name' :
  same_name_ci (name p) name' ↔
  is_Some (lower_name p) ∧ lower_name p = toLowerCase name'.
Proof.
  unfold same_name_ci, lower_name. split.
  - intros (s & t & -> & -> & Hst). simpl. split; [by eexists|by f_equal].
  - intros [[a Ha] Hb]. destruct (name p) as [| | | |s| |]; try done.
    destruct name' as [| | | |t| |]; try done.
    simpl in Hb. exists s, t. by simplify_eq.
Qed.

Lemma same_name_Some name' p :
  is_Some (lower_name p) → is_Some (toLowerCase name') →
  same_name name' p = Some (bool_decide (lower_name p = toLowerCase name')).
Proof.
  unfold same_name, lower_name. intros [a ->] [b ->]. simpl.
  f_equal. apply bool_decide_ext. naive_solver.
Qed.

(** ** The handlers on a store whose names are strings *)

Lemma createHandler_cases uuid store req :
  Forall (λ p, is_Some (lower_name p)) store →
  is_Some (toLowerCase (body_name (body req))) →
  (createHandler uuid store req = (store, conflict) ∧
   ∃ p, p ∈ store ∧ lower_name p = toLowerCase (body_name (body req))) ∨
  (createHandler uuid store req =
     (store ++ [newProduct uuid (body req)],
      {| status := 201; json := JProduct (newProduct uuid (body req)) |}) ∧
   ∀ p, p ∈ store → lower_name p ≠ toLowerCase (body_name (body req))).
Proof.
  intros Hstore Hname. unfold createHandler.
  set (f := same_name (body_name (body req))).
  assert (Forall (λ p, is_Some (f p)) store) as Htotal.
  { eapply Forall_impl; [done|]. intros p Hp. unfold f.
    rewrite same_name_Some by done. by eexists. }
  destruct (find_total f store Htotal) as [[x|] Hfind]; rewrite Hfind; simpl.
  - left. split; [done|]. apply find_Some in Hfind as [Hx Hfx].
    exists x. split; [done|]. unfold f in Hfx.
    rewrite Forall_forall in Hstore.
    rewrite same_name_Some in Hfx by auto.
    injection Hfx as Hfx. by apply bool_decide_eq_true in Hfx.
  - right. split; [done|]. apply find_None in Hfind.
    rewrite Forall_forall in Hfind, Hstore. intros p Hp.
    specialize (Hfind p Hp). unfold f in Hfind.
    rewrite same_name_Some in Hfind by auto.
    injection Hfind as Hfind. by apply bool_decide_eq_false in Hfind.
Qed.

Lemma updateHandler_cases store req :
  Forall (λ p, is_Some (lower_name p)) store →
  is_Some (toLowerCase (body_name (body req))) →
  (updateHandler store req = (store, not_found) ∧
   ∀ p, p ∈ store → id p ≠ params_id req) ∨
  ∃ i old,
    store !! i = Some old ∧ id old = params_id req ∧
    (∀ j y, store !! j = Some y → (j < i)%nat → id y ≠ params_id req) ∧
    ((updateHandler store req = (store, conflict) ∧
      ∃ p, p ∈ store ∧ id p ≠ params_id req ∧
           lower_name p = toLowerCase (body_name (body req))) ∨
     (updateHandler store req =
        (<[i := updatedProduct (params_id req) (body req) old]> store,
         {| status := 200;
            json := JProduct (updatedProduct (params_id req) (body req) old) |}) ∧
      ∀ p, p ∈ store → id p ≠ params_id req →
           lower_name p ≠ toLowerCase (body_name (body req)))).
Proof.
  intros Hstore Hname. unfold updateHandler.
  destruct (Array.findIndex _ store) as [i|] eqn:Hi.
  - right. apply findIndex_Some in Hi as (old & Hold & Hid & Hfirst).
    exists i, old. split_and!; [done..|].
    set (f := same_name_other _ _).
    assert (∀ p, p ∈ store →
              f p = Some (bool_decide (lower_name p = toLowerCase (body_name (body req)))
                          && negb (bool_decide (id p = params_id req)))) as Hf.
    { rewrite Forall_forall in Hstore. intros p Hp. unfold f, same_name_other.
      by rewrite same_name_Some by auto. }
    assert (Forall (λ p, is_Some (f p)) store) as Htotal.
    { apply Forall_forall. intros p Hp. rewrite Hf by done. by eexists. }
    destruct (find_total f store Htotal) as [[x|] Hfind]; rewrite Hfind; simpl.
    + left. split; [done|]. apply find_Some in Hfind as [Hx Hfx].
      rewrite Hf in Hfx by done. injection Hfx as Hfx.
      apply andb_true_iff in Hfx as [H1 H2].
      apply bool_decide_eq_true in H1. apply negb_true_iff in H2.
      apply bool_decide_eq_false in H2. eauto.
    + right. rewrite Hold. simpl. split; [done|].
      apply find_None in Hfind. rewrite Forall_forall in Hfind.
      intros p Hp Hne. specialize (Hfind p Hp). rewrite Hf in Hfind by done.
      injection Hfind as Hfind. apply andb_false_iff in Hfind as [H1|H2].
      * by apply bool_decide_eq_false in H1.
      * apply negb_false_iff, bool_decide_eq_true in H2. done.
  - left. split; [done|]. apply findIndex_None in Hi.
    by rewrite Forall_forall in Hi.
Qed.

Lemma deleteHandler_cases store req :
  (deleteHandler store req = (store, not_found) ∧
   ∀ p, p ∈ store → id p ≠ params_id req) ∨
  ∃ i old,
    store !! i = Some old ∧ id old = params_id req ∧
    (∀ j y, store !! j = Some y → (j < i)%nat → id y ≠ params_id req) ∧
    deleteHandler store req =
      (delete i store,
       {| status := 200;
          json := JDeleted "Product deleted successfully" old |}).
Proof.
  unfold deleteHandler.
  destruct (Array.findIndex _ store) as [i|] eqn:Hi.
  - right. apply findIndex_Some in Hi as (old & Hold & Hid & Hfirst).
    exists i, old. rewrite Hold. by split_and!.
  - left. split; [done|]. apply findIndex_None in Hi.
    by rewrite Forall_forall in Hi.
Qed.

(** ** The invariant *)

Lemma seed_ok : store_ok seed.
Proof.
  split.
  - apply (bool_decide_unpack _). by vm_compute.
  - repeat constructor; by eexists.
  - apply (bool_decide_unpack _). by vm_compute.
Qed.

Lemma create_ok uuid store req :
  store_ok store → uuid ∉ id <$> store →
  store_ok (POST_product uuid store req).1.
Proof.
  intros Hok Hfresh.
  destruct (POST_product_cases uuid store req)
    as [[_ ->]|[(_ & msg & _ & ->)|(_ & Hv & ->)]]; [done..|].
  destruct (validated_name req Hv) as [s Hs].
  assert (is_Some (toLowerCase (body_name (body req)))) as Hname
    by (rewrite Hs; by eexists).
  destruct (createHandler_cases uuid store req (ok_strings _ Hok) Hname)
    as [[-> _]|[-> Hnew]]; [done|].
  assert (lower_name (newProduct uuid (body req)) =
          toLowerCase (body_name (body req))) as Hlower by done.
  destruct Hok as [Hids Hstrings Hnames]. split; simpl.
  - rewrite fmap_app. apply NoDup_app. split_and!; [done| |apply NoDup_singleton].
    by intros x Hx ->%list_elem_of_singleton.
  - apply Forall_app. split; [done|]. apply Forall_singleton.
    rewrite Hlower, Hs. by eexists.
  - rewrite fmap_app. apply NoDup_app. split_and!; [done| |apply NoDup_singleton].
    intros x (p & -> & Hp)%list_elem_of_fmap Heq%list_elem_of_singleton.
    by apply (Hnew p).
Qed.

Lemma update_ok store req : store_ok store → store_ok (PUT_product store req).1.
Proof.
  intros Hok.
  destruct (PUT_product_cases store req)
    as [[_ ->]|[(_ & msg & _ & ->)|(_ & Hv & ->)]]; [done..|].
  destruct (validated_name req Hv) as [s Hs].
  assert (is_Some (toLowerCase (body_name (body req)))) as Hname
    by (rewrite Hs; by eexists).
  destruct (updateHandler_cases store req (ok_strings _ Hok) Hname)
    as [[-> _]|(i & old & Hold & Hid & _ & [[-> _]|[-> Hnew]])]; [done..|].
  set (new := updatedProduct _ _ _).
  assert (lower_name new = toLowerCase (body_name (body req))) as Hlower by done.
  destruct Hok as [Hids Hstrings Hnames]. split; simpl.
  - rewrite list_fmap_insert. rewrite list_insert_id; [done|].
    rewrite list_lookup_fmap, Hold. simpl. by rewrite Hid.
  - apply Forall_insert; [done|]. rewrite Hlower, Hs. by eexists.
  - apply NoDup_fmap_insert; [done|by eapply lookup_lt_Some|].
    intros j y Hy Hj. rewrite Hlower. apply Hnew.
    + by eapply list_elem_of_lookup_2.
    + intros Hidy. apply Hj.
      apply (NoDup_lookup (id <$> store) j i (params_id req)); [done|..].
      * rewrite list_lookup_fmap, Hy. simpl. by rewrite Hidy.
      * rewrite list_lookup_fmap, Hold. simpl. by rewrite Hid.
Qed.

Lemma delete_index_ok store i : store_ok store → store_ok (delete i store).
Proof.
  intros [Hids Hstrings Hnames]. split.
  - rewrite list_fmap_delete. eapply sublist_NoDup; [done|apply sublist_delete].
  - by apply Forall_delete.
  - rewrite list_fmap_delete. eapply sublist_NoDup; [done|apply sublist_delete].
Qed.

Lemma delete_ok store req :
  store_ok store → store_ok (DELETE_product store req).1.
Proof.
  intros Hok.
  destruct (DELETE_product_cases store req) as [[_ ->]|[_ ->]]; [done|].
  destruct (deleteHandler_cases store req) as [[-> _]|(i & old & _ & _ & _ & ->)];
    [done|by apply delete_index_ok].
Qed.

Lemma reachable_ok store : reachable store → store_ok store.
Proof.
  induction 1 as [|store [uuid req|req|req] _ IH Hfresh]; simpl.
  - apply seed_ok.
  - by apply create_ok.
  - by apply update_ok.
  - by apply delete_ok.
Qed.

Lemma store_ok_unique store : store_ok store → unique_names store.
Proof.
  intros [_ Hstrings Hnames] i j p q Hp Hq Hij [Hsome Heq]%same_name_ci_lower.
  apply Hij. destruct Hsome as [a Ha].
  apply (NoDup_lookup (lower_name <$> store) i j (Some a) Hnames).
  - by rewrite list_lookup_fmap, Hp, <- Ha.
  - rewrite list_lookup_fmap, Hq. simpl. f_equal.
    unfold lower_name at 1. by rewrite <- Heq.
Qed.

(** C1: in every store reachable from the three seed products by create,
    update and delete requests (whatever their headers and bodies, each
    create request drawing an identifier no stored product has), no two
    products have names that are equal case-insensitively. *)
Theorem reachable_unique_names store : reachable store → unique_names store.
Proof. intros H. by apply store_ok_unique, reachable_ok. Qed.

Lemma reachable_unique_names_witness :
  let store := (serve seed (Create "7c9e6679" (request bearer_secret_token ""
     {| body_name := VStr "Kettle"; body_description := VUndefined;
        body_price := VNum 30; body_category := VStr "kitchen";
        body_inStock := VUndefined |}))).1 in
  reachable store ∧ length store = 4%nat ∧ unique_names store.
Proof.
  intros store.
  assert (reachable store) as H.
  { apply reachable_serve; [apply reachable_seed|].
    apply (bool_decide_unpack _). by vm_compute. }
  split; [exact H|]. split; [reflexivity|].
  exact (reachable_unique_names store H).
Defined.

(** ** Create, update, delete *)

(** C2: a create request that passed the auth and validation filters, on a
    reachable store.  If a stored product has the payload's name up to
    letter case, the answer is 409 "Product with this name already exists"
    and the store is as it was.  Otherwise the record [newProduct] is
    appended to the store and returned with 201: its id is the generated
    one, its name, price and category are the payload's, its description is
    the payload's or the empty string when that is absent (or falsy), and
    its inStock is the payload's or [true] when that is absent. *)
Theorem create_spec uuid store req :
  reachable store →
  authMiddleware req = Next req → validateProduct req = Next req →
  let b := body req in
  let new := newProduct uuid b in
  ((∃ p, p ∈ store ∧ same_name_ci (name p) (body_name b)) →
   POST_product uuid store req =
     (store, {| status := 409;
                json := JError "Product with this name already exists" |})) ∧
  ((¬ ∃ p, p ∈ store ∧ same_name_ci (name p) (body_name b)) →
   POST_product uuid store req =
     (store ++ [new], {| status := 201; json := JProduct new |})) ∧
  id new = uuid ∧ name new = body_name b ∧ price new = body_price b ∧
  category new = body_category b ∧
  (body_description b = VUndefined → description new = VStr "") ∧
  (truthy (body_description b) = true → description new = body_description b) ∧
  (body_inStock b = VUndefined → inStock new = VBool true) ∧
  (body_inStock b ≠ VUndefined → inStock new = body_inStock b).
Proof.
  intros Hreach Ha Hv b new.
  assert (store_ok store) as Hok by by apply reachable_ok.
  destruct (validated_name req Hv) as [s Hs].
  assert (is_Some (toLowerCase (body_name b))) as Hname
    by (unfold b; rewrite Hs; by eexists).
  rewrite POST_product_pass by done.
  split_and!; try done.
  - intros (p & Hp & [_ Hpn]%same_name_ci_lower).
    destruct (createHandler_cases uuid store req (ok_strings _ Hok) Hname)
      as [[-> _]|[_ Hnew]]; [done|]. by destruct (Hnew p).
  - intros Hnone.
    destruct (createHandler_cases uuid store req (ok_strings _ Hok) Hname)
      as [[_ (p & Hp & Hpn)]|[-> _]]; [|done].
    destruct Hnone. exists p. split; [done|]. apply same_name_ci_lower.
    split; [|done]. pose proof (ok_strings _ Hok) as Hstr.
    rewrite Forall_forall in Hstr. auto.
  - unfold new, newProduct. simpl. by intros ->.
  - unfold new, newProduct, or_else. simpl. by intros ->.
  - unfold new, newProduct. simpl. by intros ->.
  - unfold new, newProduct. simpl. by destruct (body_inStock b).
Qed.

Lemma create_spec_witness :
  let req := request bearer_secret_token ""
               {| body_name := VStr "LAPTOP"; body_description := VUndefined;
                  body_price := VNum 999; body_category := VStr "electronics";
                  body_inStock := VUndefined |} in
  reachable seed ∧ authMiddleware req = Next req ∧
  validateProduct req = Next req ∧
  POST_product "7c9e6679" seed req =
    (seed, {| status := 409;
              json := JError "Product with this name already exists" |}).
Proof.
  intros req.
  assert (reachable seed) as Hseed by apply reachable_seed.
  assert (authMiddleware req = Next req) as Ha by reflexivity.
  assert (validateProduct req = Next req) as Hv by reflexivity.
  split_and!; [done..|].
  apply (create_spec "7c9e6679" seed req Hseed Ha Hv).
  eexists. split; [apply list_elem_of_here|].
  exists "Laptop", "LAPTOP". split_and!; reflexivity.
Defined.

Lemma unique_index store i j p q :
  store_ok store → store !! i = Some p → store !! j = Some q →
  id p = id q → i = j.
Proof.
  intros Hok Hp Hq Hid.
  apply (NoDup_lookup (id <$> store) i j (id p)); [apply Hok|..].
  - by rewrite list_lookup_fmap, Hp.
  - rewrite list_lookup_fmap, Hq. simpl. by rewrite Hid.
Qed.

(** C3: an update request that passed the auth and validation filters, on
    a reachable store.  If no stored product has the path id, the answer is
    404.  If one has, at index [i], and a product with another id has the
    payload's name up to letter case, the answer is 409.  Otherwise the
    record at [i] is replaced by [updatedProduct], which is returned with
    200: its id is the path id (the id of the replaced record), its name,
    price and category are the payload's, its description is the payload's
    or the empty string when that is absent (or falsy), and its inStock is
    the payload's or, when that is absent, the inStock of the replaced
    record (where create puts [true]). *)
Theorem update_spec store req :
  reachable store →
  authMiddleware req = Next req → validateProduct req = Next req →
  let b := body req in
  let productId := params_id req in
  ((∀ p, p ∈ store → id p ≠ productId) →
   PUT_product store req =
     (store, {| status := 404; json := JError "Product not found" |})) ∧
  (∀ i old, store !! i = Some old → id old = productId →
     let new := updatedProduct productId b old in
     ((∃ p, p ∈ store ∧ id p ≠ productId ∧
            same_name_ci (name p) (body_name b)) →
      PUT_product store req =
        (store, {| status := 409;
                   json := JError "Product with this name already exists" |})) ∧
     ((¬ ∃ p, p ∈ store ∧ id p ≠ productId ∧
              same_name_ci (name p) (body_name b)) →
      PUT_product store req =
        (<[i := new]> store, {| status := 200; json := JProduct new |})) ∧
     id new = id old ∧ name new = body_name b ∧ price new = body_price b ∧
     category new = body_category b ∧
     (body_description b = VUndefined → description new = VStr "") ∧
     (truthy (body_description b) = true →
      description new = body_description b) ∧
     (body_inStock b = VUndefined → inStock new = inStock old) ∧
     (body_inStock b = VUndefined →
      inStock (newProduct productId b) = VBool true) ∧
     (body_inStock b ≠ VUndefined → inStock new = body_inStock b)).
Proof.
  intros Hreach Ha Hv b productId.
  assert (store_ok store) as Hok by by apply reachable_ok.
  pose proof (ok_strings _ Hok) as Hstr.
  destruct (validated_name req Hv) as [s Hs].
  assert (is_Some (toLowerCase (body_name b))) as Hname
    by (unfold b; rewrite Hs; by eexists).
  rewrite PUT_product_pass by done.
  pose proof (updateHandler_cases store req Hstr Hname) as Hcases.
  split.
  - intros Hnone. destruct Hcases as [[-> _]|(i & old & Hold & Hid & _)]; [done|].
    destruct (Hnone old); [by eapply list_elem_of_lookup_2|done].
  - intros i old Hold Hid new.
    destruct Hcases as [[_ Hnone]|(i' & old' & Hold' & Hid' & _ & Hcases)].
    { destruct (Hnone old); [by eapply list_elem_of_lookup_2|done]. }
    assert (i' = i) as ->.
    { eapply unique_index; [done..|]. by rewrite Hid, Hid'. }
    assert (old' = old) as -> by congruence.
    split_and!; try done.
    + intros (p & Hp & Hpid & [_ Hpn]%same_name_ci_lower).
      destruct Hcases as [[-> _]|[_ Hnew]]; [done|]. by destruct (Hnew p).
    + intros Hnone. destruct Hcases as [[_ (p & Hp & Hpid & Hpn)]|[-> _]]; [|done].
      destruct Hnone. exists p. split_and!; [done..|].
      apply same_name_ci_lower. split; [|done].
      rewrite Forall_forall in Hstr. auto.
    + unfold new, updatedProduct. simpl. by intros ->.
    + unfold new, updatedProduct, or_else. simpl. by intros ->.
    + unfold new, updatedProduct. simpl. by intros ->.
    + unfold newProduct. simpl. by intros ->.
    + unfold new, updatedProduct. simpl. by destruct (body_inStock b).
Qed.

Lemma update_spec_witness :
  let req := request bearer_secret_token "3"
               {| body_name := VStr "coffee maker"; body_description := VUndefined;
                  body_price := VNum 45; body_category := VStr "kitchen";
                  body_inStock := VUndefined |} in
  reachable seed ∧ authMiddleware req = Next req ∧
  validateProduct req = Next req ∧
  ∃ store' new, PUT_product seed req =
                  (store', {| status := 200; json := JProduct new |}) ∧
                store' !! 2%nat = Some new ∧ id new = "3" ∧
                inStock new = VBool false ∧ description new = VStr "".
Proof.
  intros req.
  assert (reachable seed) as Hseed by apply reachable_seed.
  assert (authMiddleware req = Next req) as Ha by reflexivity.
  assert (validateProduct req = Next req) as Hv by reflexivity.
  split_and!; [done..|].
  destruct (update_spec seed req Hseed Ha Hv) as [_ H].
  destruct (H 2%nat _ eq_refl eq_refl) as (_ & Hput & _).
  eexists _, _. split; [apply Hput|by split_and!].
  intros (p & Hp & Hid & (s & t & Hs & [= <-] & Hst)).
  unfold seed in Hp.
  repeat (apply elem_of_cons in Hp as [->|Hp];
          [simpl in *; simplify_eq; try done; by vm_compute in Hst|]).
  by apply elem_of_nil in Hp.
Defined.

Lemma getHandler_absent (store : list Product) req :
  (∀ p, p ∈ store → id p ≠ params_id req) → getHandler store req = not_found.
Proof.
  intros Hnone. unfold getHandler.
  destruct (list_find _ store) as [[i p]|] eqn:Hfind; [|done].
  apply list_find_Some in Hfind as (Hp & Hid & _).
  destruct (Hnone p); [by eapply list_elem_of_lookup_2|done].
Qed.

Lemma getHandler_present (store : list Product) req i p :
  store_ok store → store !! i = Some p → id p = params_id req →
  getHandler store req = {| status := 200; json := JProduct p |}.
Proof.
  intros Hok Hp Hid. unfold getHandler.
  destruct (list_find _ store) as [[j q]|] eqn:Hfind; simpl.
  - apply list_find_Some in Hfind as (Hq & Hidq & _).
    assert (j = i) as -> by (eapply unique_index; [done..|congruence]).
    congruence.
  - apply list_find_None in Hfind. rewrite Forall_forall in Hfind.
    destruct (Hfind p); [by eapply list_elem_of_lookup_2|done].
Qed.

Lemma deleted_absent store i old p :
  store_ok store → store !! i = Some old → p ∈ delete i store →
  id p ≠ id old.
Proof.
  intros Hok Hold [j Hj]%list_elem_of_lookup_1 Hid.
  rewrite list_lookup_delete in Hj. case_decide as Hji.
  - assert (j = i) as -> by by eapply unique_index. lia.
  - assert (S j = i) as <- by by eapply unique_index. lia.
Qed.

(** C7: a delete request that passed the auth filter, on a reachable
    store.  If a stored product has the path id, it is removed from the
    store and returned with 200 and the message "Product deleted
    successfully", and a get-by-id of that id on the store left answers 404
    "Product not found".  If no stored product has the path id, the answer
    is 404 and the store is as it was. *)
Theorem delete_spec store req :
  reachable store → authMiddleware req = Next req →
  (∀ i old, store !! i = Some old → id old = params_id req →
     DELETE_product store req =
       (delete i store,
        {| status := 200;
           json := JDeleted "Product deleted successfully" old |}) ∧
     ∀ req', params_id req' = params_id req →
       GET_product (DELETE_product store req).1 req' =
         ((DELETE_product store req).1,
          {| status := 404; json := JError "Product not found" |})) ∧
  ((∀ p, p ∈ store → id p ≠ params_id req) →
   DELETE_product store req =
     (store, {| status := 404; json := JError "Product not found" |})).
Proof.
  intros Hreach Ha.
  assert (store_ok store) as Hok by by apply reachable_ok.
  rewrite DELETE_product_pass by done.
  pose proof (deleteHandler_cases store req) as Hcases. split.
  - intros i old Hold Hid.
    destruct Hcases as [[_ Hnone]|(i' & old' & Hold' & Hid' & _ & ->)].
    { destruct (Hnone old); [by eapply list_elem_of_lookup_2|done]. }
    assert (i' = i) as ->.
    { eapply unique_index; [done..|]. by rewrite Hid, Hid'. }
    assert (old' = old) as -> by congruence.
    split; [done|]. intros req' Hreq'. unfold GET_product. simpl.
    f_equal. apply getHandler_absent. intros p Hp. rewrite Hreq', <- Hid.
    by eapply deleted_absent.
  - intros Hnone. destruct Hcases as [[-> _]|(i & old & Hold & Hid & _)]; [done|].
    destruct (Hnone old); [by eapply list_elem_of_lookup_2|done].
Qed.

Lemma delete_spec_witness :
  let req := request bearer_secret_token "2" no_body in
  reachable seed ∧ authMiddleware req = Next req ∧
  ∃ store' old,
    DELETE_product seed req =
      (store', {| status := 200;
                  json := JDeleted "Product deleted successfully" old |}) ∧
    name old = VStr "Smartphone" ∧ length store' = 2%nat ∧
    (GET_product store' req).2 =
      {| status := 404; json := JError "Product not found" |}.
Proof.
  intros req.
  assert (reachable seed) as Hseed by apply reachable_seed.
  assert (authMiddleware req = Next req) as Ha by reflexivity.
  split_and!; [done..|].
  destruct (delete_spec seed req Hseed Ha) as [H _].
  destruct (H 1%nat _ eq_refl eq_refl) as [Hdel Hget].
  eexists _, _. split; [apply Hdel|]. split_and!; [done..|].
  specialize (Hget req eq_refl). rewrite Hdel in Hget. cbn [fst] in Hget.
  by rewrite Hget.
Defined.

(** ** Rejected requests *)

Lemma createHandler_status uuid store req :
  let r := createHandler uuid store req in
  status r.2 = 500%nat ∨ status r.2 = 409%nat ∨ status r.2 = 201%nat.
Proof.
  unfold createHandler.
  destruct (Array.find _ store) as [[x|]|]; simpl; auto.
Qed.

(** C8: a POST /api/products request answered 401 or 400 leaves the store
    exactly as it was; a request the auth filter rejects is answered 401,
    and one the validation filter rejects is answered 400 with the message
    of the failing field. *)
Theorem rejected_create_keeps_store uuid store req :
  let r := POST_product uuid store req in
  (status r.2 = 401%nat ∨ status r.2 = 400%nat → r.1 = store) ∧
  (authMiddleware req = unauthorized →
   r = (store, {| status := 401;
                  json := JError "Unauthorized: Invalid or missing token" |})) ∧
  (∀ msg, authMiddleware req = Next req →
          validateProduct req = bad_request msg →
          r = (store, {| status := 400; json := JError msg |})).
Proof.
  intros r. unfold r.
  destruct (POST_product_cases uuid store req)
    as [[Ha ->]|[(Ha & msg & Hv & ->)|(Ha & Hv & ->)]].
  - split_and!; try done. rewrite Ha. by intros msg' [=].
  - split_and!; try done.
    + rewrite Ha. by intros [=].
    + intros msg' _. rewrite Hv. by intros [= ->].
  - split_and!.
    + destruct (createHandler_status uuid store req) as [H|[H|H]];
        intros [H'|H']; rewrite H in H'; done.
    + rewrite Ha. by intros [=].
    + intros msg' _. rewrite Hv. by intros [=].
Qed.

Lemma rejected_create_keeps_store_witness :
  let req := request bearer_secret_token ""
               {| body_name := VStr "Kettle"; body_description := VUndefined;
                  body_price := VNum (-5); body_category := VStr "kitchen";
                  body_inStock := VUndefined |} in
  let r := POST_product "7c9e6679" seed req in
  r.2 = {| status := 400; json := JError price_message |} ∧ r.1 = seed.
Proof.
  intros req r. split; [reflexivity|].
  apply (rejected_create_keeps_store "7c9e6679" seed req).
  right. reflexivity.
Defined.

(** ** Slices *)

Lemma range_from_shift {A} (l : list A) i a b :
  range_from i a b l = range_from 0 (a - i) (b - i) l.
Proof.
  revert i a b. induction l as [|x l IH]; intros i a b; simpl; [done|].
  rewrite (IH (i + 1)%Z), (IH 1%Z). f_equal.
  - by replace (a - i <=? 0)%Z with (a <=? i)%Z by lia;
      replace (0 <? b - i)%Z with (i <? b)%Z by lia.
  - f_equal; lia.
Qed.

Lemma range_take_drop {A} (l : list A) a b :
  range l a b = take (Z.to_nat b - Z.to_nat a) (drop (Z.to_nat a) l).
Proof.
  unfold range. revert a b. induction l as [|x l IH]; intros a b; simpl.
  - by rewrite drop_nil, take_nil.
  - rewrite range_from_shift, IH.
    replace (Z.to_nat (b - (0 + 1))) with (Z.to_nat b - 1)%nat by lia.
    destruct (Z.leb_spec a 0) as [Ha|Ha]; simpl.
    + replace (Z.to_nat a) with 0%nat by lia.
      replace (Z.to_nat (a - (0 + 1))) with 0%nat by lia. simpl.
      rewrite !Nat.sub_0_r.
      destruct (Z.ltb_spec 0 b) as [Hb|Hb]; simpl.
      * by replace (Z.to_nat b) with (S (Z.to_nat b - 1)) at 2 by lia.
      * by replace (Z.to_nat b) with 0%nat by lia.
    + replace (Z.to_nat (a - (0 + 1))) with (Z.to_nat a - 1)%nat by lia.
      destruct (Z.to_nat a) as [|k] eqn:Hk; [lia|]. simpl.
      rewrite Nat.sub_0_r. f_equal. lia.
Qed.

Lemma slice_range {A} (l : list A) a b :
  (0 ≤ a)%Z → (0 ≤ b)%Z → Array.slice l a b = range l a b.
Proof.
  intros Ha Hb. rewrite range_take_drop. unfold Array.slice, Array.relative.
  destruct (Z.ltb_spec a 0) as [?|_]; [lia|].
  destruct (Z.ltb_spec b 0) as [?|_]; [lia|].
  destruct (decide (length l ≤ Z.to_nat a)%nat) as [Hlen|Hlen].
  - rewrite !drop_ge by lia. by rewrite !take_nil.
  - replace (Z.to_nat (Z.min a (Z.of_nat (length l)))) with (Z.to_nat a) by lia.
    destruct (decide (length l ≤ Z.to_nat b)%nat) as [Hlen'|Hlen'].
    + rewrite !take_ge; [done|rewrite length_drop; lia..].
    + f_equal. lia.
Qed.

Lemma slice_from_end {A} (l : list A) a b :
  Array.slice l a b =
  range l (from_end (length l) a) (from_end (length l) b).
Proof.
  rewrite <- slice_range by (unfold from_end; case_match; lia).
  unfold Array.slice. f_equal; [f_equal|f_equal];
    unfold Array.relative, from_end; repeat case_match; lia.
Qed.

(** ** The list operation *)

Lemma filter_if_Some param callback l r :
  filter_if param callback l = Some r →
  r = filter (λ p, passes_if param callback p) l.
Proof.
  unfold filter_if, passes_if. destruct param as [s|].
  - destruct (String.eqb s ""); simpl.
    + intros [= <-]. induction l as [|x l IH]; [done|].
      by rewrite filter_cons_True, <- IH by done.
    + intros ->%filter_Some. apply list_filter_iff. intros p.
      by rewrite bool_decide_spec.
  - intros [= <-]. induction l as [|x l IH]; [done|].
    by rewrite filter_cons_True, <- IH by done.
Qed.

Lemma filtered_passes store q F :
  filtered store q = Some F → F = filter (λ p, passes q p) store.
Proof.
  unfold filtered.
  destruct (filter_if (query_search q) _ store) as [l1|] eqn:H1; [|done].
  simpl. destruct (filter_if (query_category q) _ l1) as [l2|] eqn:H2; [|done].
  simpl. apply filter_if_Some in H1 as ->. apply filter_if_Some in H2 as ->.
  intros H3.
  assert (F = filter (λ p, passes_stock q p)
                (filter (λ p, passes_if (query_category q) category_callback p)
                   (filter (λ p, passes_if (query_search q) search_callback p)
                      store))) as ->.
  { unfold passes_stock. destruct (query_inStock q) as [s|].
    - apply filter_Some in H3 as ->. apply list_filter_iff. intros p.
      by rewrite bool_decide_spec.
    - injection H3 as <-. set (l := filter _ (filter _ store)).
      clearbody l. induction l as [|x l IH]; [done|].
      by rewrite filter_cons_True, <- IH by done. }
  rewrite !list_filter_filter. apply list_filter_iff. intros p.
  unfold passes. rewrite !andb_True. tauto.
Qed.

Lemma filter_if_total param callback l :
  (∀ s, Forall (λ p, is_Some (callback s p)) l) →
  is_Some (filter_if param callback l).
Proof.
  intros H. unfold filter_if. destruct param as [s|]; [|by eexists].
  destruct (String.eqb s ""); [by eexists|]. by apply filter_total.
Qed.

Lemma filtered_total store q :
  Forall text_product store → is_Some (filtered store q).
Proof.
  intros Htext. unfold filtered.
  destruct (filter_if_total (query_search q) search_callback store)
    as [l1 H1].
  { intros s. eapply Forall_impl; [done|].
    intros p ([a Ha] & [d Hd] & _). unfold search_callback.
    rewrite Ha, Hd. simpl. destruct (Str.includes a _); by eexists. }
  rewrite H1. simpl.
  assert (Forall text_product l1) as Htext1.
  { apply filter_if_Some in H1 as ->. rewrite Forall_forall in Htext.
    apply Forall_forall. intros p [_ Hp]%list_elem_of_filter. auto. }
  destruct (filter_if_total (query_category q) category_callback l1)
    as [l2 H2].
  { intros s. eapply Forall_impl; [done|].
    intros p (_ & _ & [c Hc]). unfold category_callback.
    rewrite Hc. by eexists. }
  rewrite H2. simpl. destruct (query_inStock q) as [s|]; [|by eexists].
  apply filter_total, Forall_forall. intros p _. by eexists.
Qed.

Lemma seed_text : Forall text_product seed.
Proof. repeat constructor; by eexists. Qed.

(** C5, as stated, fails on [page=-1&limit=1] against the seed products:
    no index lies in the range [-2, -1), and the answer carries the second
    product, [slice] counting a negative index from the end of the array. *)
Lemma list_negative_page :
  let req := request_query
               {| query_search := None; query_category := None;
                  query_inStock := None; query_page := Some "-1";
                  query_limit := Some "1" |} in
  let q := query req in
  filtered seed q = Some seed ∧
  ∃ r second,
    GET_products seed req = (seed, {| status := 200; json := JListing r |}) ∧
    seed !! 1%nat = Some second ∧ products r = [second] ∧
    products r ≠ range seed ((page_of q - 1) * limit_of q)
                       (page_of q * limit_of q).
Proof. intros req q. split; [done|]. by eexists _, _. Qed.

(** The filters do not always complete: on a reachable store holding a
    product created with the number 5 as its description, a search that no
    name contains reads [toLowerCase] of that number, and the answer is
    500. *)
Lemma list_search_throws :
  let create := request bearer_secret_token ""
                  {| body_name := VStr "Kettle"; body_description := VNum 5;
                     body_price := VNum 30; body_category := VStr "kitchen";
                     body_inStock := VUndefined |} in
  let store := (serve seed (Create "7c9e6679" create)).1 in
  let req := request_query
               {| query_search := Some "zzz"; query_category := None;
                  query_inStock := None; query_page := None;
                  query_limit := None |} in
  reachable store ∧
  GET_products store req =
    (store, {| status := 500; json := JError "Failed to retrieve products" |}).
Proof.
  intros create store req. split; [|done].
  apply reachable_serve; [apply reachable_seed|].
  apply (bool_decide_unpack _). by vm_compute.
Qed.

(** C5, amended: a list request whose parameters are strings, whose
    filters complete with the working set [F] (they do when the stored
    names, descriptions and categories are strings, as in the seed data),
    and whose parsed page [p] and limit [l] are below 2^53 in magnitude.
    [F] is the products that pass the search, category and inStock filters
    together.  The answer is 200 with the length of [F] in [total], [p] in
    [page], [l] in [limit], the link [{page: p+1, limit: l}] in [next]
    exactly when [p*l < |F|] and the link [{page: p-1, limit: l}] in
    [previous] exactly when [(p-1)*l > 0], whatever the signs of [p] and
    [l].  [products] is [F] sliced to the half-open range [(p-1)*l, p*l)
    when neither index is negative (as for every [p >= 1] and [l >= 1]);
    a negative index is first counted from the end of [F]. *)
Theorem list_spec store req F :
  let q := query req in
  let p := page_of q in
  let l := limit_of q in
  filtered store q = Some F →
  safe_integer p → safe_integer l →
  F = filter (λ x, passes q x) store ∧
  ∃ r, GET_products store req =
         (store, {| status := 200; json := JListing r |}) ∧
       total r = length F ∧ page r = p ∧ limit r = l ∧
       next r = (if (p * l <? Z.of_nat (length F))%Z
                 then Some {| link_page := p + 1; link_limit := l |}
                 else None) ∧
       previous r = (if (0 <? (p - 1) * l)%Z
                     then Some {| link_page := p - 1; link_limit := l |}
                     else None) ∧
       products r = range F (from_end (length F) ((p - 1) * l))
                            (from_end (length F) (p * l)) ∧
       ((0 ≤ (p - 1) * l)%Z → (0 ≤ p * l)%Z →
        products r = range F ((p - 1) * l) (p * l)).
Proof.
  intros q p l HF _ _. split; [by apply filtered_passes|].
  exists (paginate F q). split.
  - unfold GET_products, listHandler. simpl. fold q. by rewrite HF.
  - split_and!; try done.
    + simpl. by apply slice_from_end.
    + intros Hstart Hend. simpl. by apply slice_range.
Qed.

Lemma list_spec_witness :
  let req := request_query
               {| query_search := None; query_category := None;
                  query_inStock := None; query_page := Some "2";
                  query_limit := Some "1" |} in
  filtered seed (query req) = Some seed ∧
  safe_integer (page_of (query req)) ∧ safe_integer (limit_of (query req)) ∧
  ∃ r second,
    GET_products seed req = (seed, {| status := 200; json := JListing r |}) ∧
    seed !! 1%nat = Some second ∧ products r = [second] ∧
    total r = 3%nat ∧
    next r = Some {| link_page := 3; link_limit := 1 |} ∧
    previous r = Some {| link_page := 1; link_limit := 1 |}.
Proof.
  intros req.
  assert (safe_integer (page_of (query req))) as Hp by (by vm_compute).
  assert (safe_integer (limit_of (query req))) as Hl by (by vm_compute).
  split; [reflexivity|]. split; [done|]. split; [done|].
  destruct (list_spec seed req seed eq_refl Hp Hl) as (_ & r & Hget & Hr).
  destruct Hr as (Htotal & _ & _ & Hnext & Hprevious & _ & Hproducts).
  exists r. eexists. split; [exact Hget|]. split; [reflexivity|].
  split_and!; [|done..]. rewrite Hproducts; [reflexivity|by vm_compute..].
Defined.

(** ** Page and limit *)

Lemma GET_products_ext store req req' :
  query_search (query req) = query_search (query req') →
  query_category (query req) = query_category (query req') →
  query_inStock (query req) = query_inStock (query req') →
  page_of (query req) = page_of (query req') →
  limit_of (query req) = limit_of (query req') →
  GET_products store req = GET_products store req'.
Proof.
  intros Hs Hc Hi Hp Hl.
  unfold GET_products, listHandler, filtered, paginate, startIndex, endIndex.
  simpl. by rewrite Hs, Hc, Hi, Hp, Hl.
Qed.

Lemma GET_products_status store req :
  (∀ F, filtered store (query req) = Some F →
        GET_products store req =
          (store, {| status := 200;
                     json := JListing (paginate F (query req)) |})) ∧
  (filtered store (query req) = None →
   GET_products store req =
     (store, {| status := 500;
                json := JError "Failed to retrieve products" |})).
Proof.
  unfold GET_products, listHandler. simpl.
  split; [intros F ->|intros ->]; done.
Qed.

(** C9: a list request whose [page] parameter does not parse ([parseInt]
    gives NaN; a missing parameter is such a one) is served with page 1,
    and one whose [limit] parameter does not parse is served with limit 10:
    the answer is the answer to the same request with [page=1], or
    [limit=10], and it is the 200 listing whenever the filters complete. *)
Theorem parse_failure_defaults store req :
  let q := query req in
  (query_page q ≫= Str.parseInt = None →
   page_of q = 1%Z ∧
   GET_products store req = GET_products store (set_page req (Some "1"))) ∧
  (query_limit q ≫= Str.parseInt = None →
   limit_of q = 10%Z ∧
   GET_products store req = GET_products store (set_limit req (Some "10"))) ∧
  (∀ F, filtered store q = Some F →
        GET_products store req =
          (store, {| status := 200; json := JListing (paginate F q) |})).
Proof.
  intros q. split_and!.
  - intros Hpage.
    assert (page_of q = 1%Z) as Hp by (unfold page_of, parse_or; by rewrite Hpage).
    split; [done|]. by apply GET_products_ext.
  - intros Hlimit.
    assert (limit_of q = 10%Z) as Hl
      by (unfold limit_of, parse_or; by rewrite Hlimit).
    split; [done|]. by apply GET_products_ext.
  - apply GET_products_status.
Qed.

Lemma parse_failure_defaults_witness :
  let req := request_query
               {| query_search := None; query_category := None;
                  query_inStock := None; query_page := Some "abc";
                  query_limit := Some "ten" |} in
  let q := query req in
  query_page q ≫= Str.parseInt = None ∧
  query_limit q ≫= Str.parseInt = None ∧
  page_of q = 1%Z ∧ limit_of q = 10%Z ∧
  GET_products seed req =
    (seed, {| status := 200; json := JListing (paginate seed q) |}).
Proof.
  intros req q.
  destruct (parse_failure_defaults seed req) as (Hpage & Hlimit & Hserved).
  split; [reflexivity|]. split; [reflexivity|].
  split; [apply Hpage; reflexivity|].
  split; [apply Hlimit; reflexivity|].
  apply Hserved. reflexivity.
Defined.

(** C10: a list request whose [page] parameter parses to 0 is served with
    page 1, and one whose [limit] parameter parses to 0 is served with
    limit 10: the answer is the answer to the same request with [page=1],
    or [limit=10]. *)
Theorem zero_defaults store req :
  let q := query req in
  (query_page q ≫= Str.parseInt = Some 0%Z →
   page_of q = 1%Z ∧
   GET_products store req = GET_products store (set_page req (Some "1"))) ∧
  (query_limit q ≫= Str.parseInt = Some 0%Z →
   limit_of q = 10%Z ∧
   GET_products store req = GET_products store (set_limit req (Some "10"))).
Proof.
  intros q. split.
  - intros Hpage.
    assert (page_of q = 1%Z) as Hp by (unfold page_of, parse_or; by rewrite Hpage).
    split; [done|]. by apply GET_products_ext.
  - intros Hlimit.
    assert (limit_of q = 10%Z) as Hl
      by (unfold limit_of, parse_or; by rewrite Hlimit).
    split; [done|]. by apply GET_products_ext.
Qed.

Lemma zero_defaults_witness :
  let req := request_query
               {| query_search := None; query_category := None;
                  query_inStock := None; query_page := Some "0";
                  query_limit := Some "0" |} in
  let q := query req in
  query_page q ≫= Str.parseInt = Some 0%Z ∧
  query_limit q ≫= Str.parseInt = Some 0%Z ∧
  page_of q = 1%Z ∧ limit_of q = 10%Z ∧
  GET_products seed req = GET_products seed (set_page req (Some "1")) ∧
  GET_products seed req = GET_products seed (set_limit req (Some "10")).
Proof.
  intros req q.
  destruct (zero_defaults seed req) as (Hpage & Hlimit).
  split; [reflexivity|]. split; [reflexivity|].
  destruct (Hpage eq_refl) as [Hp Hget], (Hlimit eq_refl) as [Hl Hget'].
  by split_and!.
Defined.

(** * Further properties *)

(** ** Get by id after a write *)

Lemma list_find_app_fresh {A} (P : A → Prop) `{!∀ x, Decision (P x)}
    (l : list A) x :
  Forall (λ y, ¬ P y) l → P x →
  list_find P (l ++ [x]) = Some (length l, x).
Proof.
  intros Hl Hx. apply list_find_Some. split_and!.
  - by rewrite lookup_app_r, Nat.sub_diag by lia.
  - done.
  - intros j y Hj Hlt. rewrite lookup_app_l in Hj by done.
    rewrite Forall_forall in Hl. apply Hl. by eapply list_elem_of_lookup_2.
Qed.

Lemma createHandler_created uuid store req store' res :
  createHandler uuid store req = (store', res) → status res = 201%nat →
  store' = store ++ [newProduct uuid (body req)] ∧
  res = {| status := 201; json := JProduct (newProduct uuid (body req)) |} ∧
  Forall (λ p, same_name (body_name (body req)) p = Some false) store.
Proof.
  unfold createHandler.
  destruct (Array.find _ store) as [[x|]|] eqn:Hfind; simpl;
    intros [= <- <-]; try done.
  intros _. split_and!; [done..|]. by apply find_None.
Qed.

Lemma POST_product_created uuid store req store' res :
  POST_product uuid store req = (store', res) → status res = 201%nat →
  authMiddleware req = Next req ∧ validateProduct req = Next req ∧
  createHandler uuid store req = (store', res).
Proof.
  destruct (POST_product_cases uuid store req)
    as [[_ ->]|[(_ & msg & _ & ->)|(Ha & Hv & ->)]].
  - by intros [= <- <-].
  - by intros [= <- <-].
  - done.
Qed.

(** X1: a create answered 201, with an identifier no stored product had, can
    be read back: get-by-id of that identifier on the resulting store
    answers 200 with the very record the create returned. *)
Theorem create_then_get uuid store req store' res req' :
  uuid ∉ id <$> store →
  POST_product uuid store req = (store', res) → status res = 201%nat →
  params_id req' = uuid →
  ∃ new, res = {| status := 201; json := JProduct new |} ∧
         GET_product store' req' =
           (store', {| status := 200; json := JProduct new |}).
Proof.
  intros Hfresh Hpost Hstatus Hid.
  apply POST_product_created in Hpost as (_ & _ & Hcreate); [|done].
  apply createHandler_created in Hcreate as (-> & -> & _); [|done].
  eexists. split; [done|]. unfold GET_product, getHandler. simpl.
  rewrite list_find_app_fresh; [done| |by rewrite Hid].
  apply Forall_forall. intros p Hp Hidp. apply Hfresh.
  rewrite Hid in Hidp. rewrite <- Hidp. by apply list_elem_of_fmap_2.
Qed.

Lemma create_then_get_witness :
  let req := request bearer_secret_token ""
               {| body_name := VStr "Kettle"; body_description := VUndefined;
                  body_price := VNum 30; body_category := VStr "kitchen";
                  body_inStock := VUndefined |} in
  let r := POST_product "7c9e6679" seed req in
  ("7c9e6679" ∉ id <$> seed) ∧ status r.2 = 201%nat ∧
  ∃ new, name new = VStr "Kettle" ∧ inStock new = VBool true ∧
         GET_product r.1 (request None "7c9e6679" no_body) =
           (r.1, {| status := 200; json := JProduct new |}).
Proof.
  intros req r.
  assert ("7c9e6679" ∉ (id <$> seed)) as Hfresh
    by (apply (bool_decide_unpack _); by vm_compute).
  split; [done|]. split; [reflexivity|].
  destruct (create_then_get "7c9e6679" seed req r.1 r.2
              (request None "7c9e6679" no_body) Hfresh)
    as (new & Hres & Hget); [reflexivity..|].
  exists new. split_and!; [by injection Hres as <-..|done].
Defined.

Section First.
Context {A : Type} (P : A → Prop) `{!∀ x, Decision (P x)}.

Lemma find_snd_cons x (l : list A) :
  snd <$> list_find P (x :: l) =
  if decide (P x) then Some x else snd <$> list_find P l.
Proof.
  csimpl. case_decide; [done|]. rewrite <- option_fmap_compose.
  by destruct (list_find P l) as [[]|].
Qed.

Lemma find_snd_app (l : list A) y :
  ¬ P y → snd <$> list_find P (l ++ [y]) = snd <$> list_find P l.
Proof.
  intros Hy. induction l as [|x l IH].
  - rewrite app_nil_l, find_snd_cons. by rewrite decide_False.
  - rewrite <- app_comm_cons, !find_snd_cons. by case_decide.
Qed.

Lemma find_snd_insert (l : list A) i x y :
  l !! i = Some x → ¬ P x → ¬ P y →
  snd <$> list_find P (<[i:=y]> l) = snd <$> list_find P l.
Proof.
  intros Hx Hnx Hny. revert i Hx.
  induction l as [|z l IH]; intros [|i] Hx; try done.
  - injection Hx as ->. cbn [insert list_insert].
    by rewrite !find_snd_cons, !decide_False.
  - cbn [insert list_insert]. rewrite !find_snd_cons.
    case_decide; [done|]. by apply IH.
Qed.

Lemma find_snd_delete (l : list A) i x :
  l !! i = Some x → ¬ P x →
  snd <$> list_find P (delete i l) = snd <$> list_find P l.
Proof.
  intros Hx Hnx. revert i Hx.
  induction l as [|z l IH]; intros [|i] Hx; try done.
  - injection Hx as ->. cbn [delete list_delete].
    by rewrite find_snd_cons, decide_False.
  - cbn [delete list_delete]. rewrite !find_snd_cons.
    case_decide; [done|]. by apply IH.
Qed.

Lemma find_snd_insert_first (l : list A) i y :
  Array.findIndex P l = Some i → P y →
  snd <$> list_find P (<[i:=y]> l) = Some y.
Proof.
  intros (x & Hx & _ & Hfirst)%findIndex_Some Hy.
  assert (list_find P (<[i:=y]> l) = Some (i, y)) as ->; [|done].
  apply list_find_Some. split_and!.
  - apply list_lookup_insert_eq. by eapply lookup_lt_Some.
  - done.
  - intros j z Hz Hlt. rewrite list_lookup_insert_ne in Hz by lia. eauto.
Qed.
End First.

Lemma updateHandler_updated store req store' res :
  updateHandler store req = (store', res) → status res = 200%nat →
  ∃ i old,
    Array.findIndex (λ p, id p = params_id req) store = Some i ∧
    store !! i = Some old ∧
    store' = <[i := updatedProduct (params_id req) (body req) old]> store ∧
    res = {| status := 200;
             json := JProduct (updatedProduct (params_id req) (body req) old) |} ∧
    Forall (λ p, same_name_other (body_name (body req)) (params_id req) p
                 = Some false) store.
Proof.
  unfold updateHandler.
  destruct (Array.findIndex _ store) as [i|] eqn:Hi; simpl;
    [|by intros [= <- <-]].
  destruct (Array.find _ store) as [[x|]|] eqn:Hfind; simpl;
    try by intros [= <- <-].
  destruct (store !! i) as [old|] eqn:Hold; simpl; [|by intros [= <- <-]].
  intros [= <- <-] _. exists i, old. split_and!; [done..|]. by apply find_None.
Qed.

Lemma PUT_product_updated store req store' res :
  PUT_product store req = (store', res) → status res = 200%nat →
  authMiddleware req = Next req ∧ validateProduct req = Next req ∧
  updateHandler store req = (store', res).
Proof.
  destruct (PUT_product_cases store req)
    as [[_ ->]|[(_ & msg & _ & ->)|(Ha & Hv & ->)]].
  - by intros [= <- <-].
  - by intros [= <- <-].
  - done.
Qed.

Lemma deleteHandler_deleted store req store' res :
  deleteHandler store req = (store', res) → status res = 200%nat →
  ∃ i old,
    Array.findIndex (λ p, id p = params_id req) store = Some i ∧
    store !! i = Some old ∧ id old = params_id req ∧
    store' = delete i store ∧
    res = {| status := 200;
             json := JDeleted "Product deleted successfully" old |}.
Proof.
  unfold deleteHandler.
  destruct (Array.findIndex _ store) as [i|] eqn:Hi; simpl;
    [|by intros [= <- <-]].
  pose proof Hi as (old & Hold & Hid & _)%findIndex_Some.
  rewrite Hold. simpl. intros [= <- <-] _. by exists i, old.
Qed.

Lemma DELETE_product_deleted store req store' res :
  DELETE_product store req = (store', res) → status res = 200%nat →
  authMiddleware req = Next req ∧ deleteHandler store req = (store', res).
Proof.
  destruct (DELETE_product_cases store req) as [[_ ->]|[Ha ->]].
  - by intros [= <- <-].
  - done.
Qed.

(** X2: an update answered 200 can be read back: get-by-id of the path id
    on the resulting store answers 200 with the very record the update
    returned.  This holds on every store, the update writing the first
    record that has the id and get-by-id reading the first one. *)
Theorem update_then_get store req store' res req' :
  PUT_product store req = (store', res) → status res = 200%nat →
  params_id req' = params_id req →
  ∃ new, res = {| status := 200; json := JProduct new |} ∧
         GET_product store' req' =
           (store', {| status := 200; json := JProduct new |}).
Proof.
  intros Hput Hstatus Hid.
  apply PUT_product_updated in Hput as (_ & _ & Hupdate); [|done].
  apply updateHandler_updated in Hupdate
    as (i & old & Hi & Hold & -> & -> & _); [|done].
  eexists. split; [done|]. unfold GET_product, getHandler. simpl.
  rewrite Hid. by rewrite (find_snd_insert_first _ store i).
Qed.

Lemma update_then_get_witness :
  let req := request bearer_secret_token "3"
               {| body_name := VStr "Espresso Machine";
                  body_description := VStr "Fifteen bar pump";
                  body_price := VNum 120; body_category := VStr "kitchen";
                  body_inStock := VUndefined |} in
  let r := PUT_product seed req in
  status r.2 = 200%nat ∧
  ∃ new, name new = VStr "Espresso Machine" ∧ inStock new = VBool false ∧
         GET_product r.1 (request None "3" no_body) =
           (r.1, {| status := 200; json := JProduct new |}).
Proof.
  intros req r. split; [reflexivity|].
  destruct (update_then_get seed req r.1 r.2 (request None "3" no_body))
    as (new & Hres & Hget); [reflexivity..|].
  exists new. split_and!; [by injection Hres as <-..|done].
Defined.

(** ** What a write changes *)

Lemma createHandler_effect uuid store req :
  let r := createHandler uuid store req in
  r.1 = store ∧ (400 ≤ status r.2)%nat ∨
  r = (store ++ [newProduct uuid (body req)],
       {| status := 201; json := JProduct (newProduct uuid (body req)) |}).
Proof.
  unfold createHandler.
  unfold try_catch. destruct (Array.find _ store) as [[x|]|]; simpl.
  - left. split; [done|]. simpl. lia.
  - by right.
  - left. split; [done|]. simpl. lia.
Qed.

Lemma updateHandler_effect store req :
  let r := updateHandler store req in
  r.1 = store ∧ (400 ≤ status r.2)%nat ∨
  ∃ i old, store !! i = Some old ∧ id old = params_id req ∧
           r = (<[i := updatedProduct (params_id req) (body req) old]> store,
                {| status := 200;
                   json := JProduct
                             (updatedProduct (params_id req) (body req) old) |}).
Proof.
  unfold updateHandler, try_catch.
  destruct (Array.findIndex _ store) as [i|] eqn:Hi; simpl;
    [|left; split; [done|simpl; lia]].
  apply findIndex_Some in Hi as (old & Hold & Hid & _).
  destruct (Array.find _ store) as [[x|]|]; simpl;
    [left; split; [done|simpl; lia]| |left; split; [done|simpl; lia]].
  rewrite Hold. simpl. right. by exists i, old.
Qed.

Lemma deleteHandler_effect store req :
  let r := deleteHandler store req in
  r.1 = store ∧ (400 ≤ status r.2)%nat ∨
  ∃ i old, store !! i = Some old ∧ id old = params_id req ∧
           r = (delete i store,
                {| status := 200;
                   json := JDeleted "Product deleted successfully" old |}).
Proof.
  unfold deleteHandler, try_catch.
  destruct (Array.findIndex _ store) as [i|] eqn:Hi; simpl;
    [|left; split; [done|simpl; lia]].
  apply findIndex_Some in Hi as (old & Hold & Hid & _).
  rewrite Hold. simpl. right. by exists i, old.
Qed.

(** The effect of a write on the store: none, with an error status, or one
    record appended, replaced by one of the same id, or removed. *)
Lemma serve_effect store c :
  let r := serve store c in
  r.1 = store ∧ (400 ≤ status r.2)%nat ∨
  (∃ new, id new = target c ∧ r.1 = store ++ [new] ∧
          r.2 = {| status := 201; json := JProduct new |}) ∨
  (∃ i old new, store !! i = Some old ∧ id old = target c ∧
                id new = target c ∧ r.1 = <[i := new]> store ∧
                r.2 = {| status := 200; json := JProduct new |}) ∨
  (∃ i old, store !! i = Some old ∧ id old = target c ∧
            r.1 = delete i store ∧
            r.2 = {| status := 200;
                     json := JDeleted "Product deleted successfully" old |}).
Proof.
  destruct c as [uuid req|req|req]; simpl.
  - destruct (POST_product_cases uuid store req)
      as [[_ ->]|[(_ & msg & _ & ->)|(_ & _ & ->)]];
      [left; split; [done|simpl; lia]..|].
    destruct (createHandler_effect uuid store req) as [?| ->]; [by left|].
    right; left. by exists (newProduct uuid (body req)).
  - destruct (PUT_product_cases store req)
      as [[_ ->]|[(_ & msg & _ & ->)|(_ & _ & ->)]];
      [left; split; [done|simpl; lia]..|].
    destruct (updateHandler_effect store req)
      as [?|(i & old & Hold & Hid & ->)]; [by left|].
    right; right; left.
    by exists i, old, (updatedProduct (params_id req) (body req) old).
  - destruct (DELETE_product_cases store req) as [[_ ->]|[_ ->]];
      [left; split; [done|simpl; lia]|].
    destruct (deleteHandler_effect store req)
      as [?|(i & old & Hold & Hid & ->)]; [by left|].
    right; right; right. by eexists i, old.
Qed.

(** X3: a create, update or delete request answered with an error status
    (400 or above: 400, 401, 404, 409, 500) leaves the store exactly as it
    was, on every store and for every request. *)
Theorem error_keeps_store store c :
  (400 ≤ status (serve store c).2)%nat → (serve store c).1 = store.
Proof.
  destruct (serve_effect store c)
    as [[H _]|[(new & _ & _ & ->)|[(i & old & new & _ & _ & _ & _ & ->)|
        (i & old & _ & _ & _ & ->)]]]; [done|simpl; lia..].
Qed.

Lemma error_keeps_store_witness :
  let c := Update (request bearer_secret_token "3"
             {| body_name := VStr "laptop"; body_description := VUndefined;
                body_price := VNum 45; body_category := VStr "kitchen";
                body_inStock := VUndefined |}) in
  status (serve seed c).2 = 409%nat ∧ (serve seed c).1 = seed.
Proof.
  intros c. split; [reflexivity|].
  apply (error_keeps_store seed c).
  replace (status (serve seed c).2) with 409%nat by reflexivity. lia.
Defined.

(** X4: a write about one identifier never changes what get-by-id answers
    for another identifier: a create with generated id [u], or an update or
    delete with path id [u], leaves the answer of get-by-id for every id
    other than [u] as it was, on every store. *)
Theorem write_keeps_other_ids store c req' :
  params_id req' ≠ target c →
  (GET_product (serve store c).1 req').2 = (GET_product store req').2.
Proof.
  intros Hne. unfold GET_product, getHandler. simpl.
  destruct (serve_effect store c)
    as [[-> _]|[(new & Hnew & -> & _)|[(i & old & new & Hold & Hid & Hnew & -> & _)|
        (i & old & Hold & Hid & -> & _)]]]; [done|..].
  - rewrite find_snd_app; [done|]. by rewrite Hnew.
  - rewrite (find_snd_insert _ store i old); [done..| |]; congruence.
  - rewrite (find_snd_delete _ store i old); [done..|]. congruence.
Qed.

Lemma write_keeps_other_ids_witness :
  let c := Delete (request bearer_secret_token "2" no_body) in
  let req' := request None "3" no_body in
  params_id req' ≠ target c ∧ length (serve seed c).1 = 2%nat ∧
  (GET_product (serve seed c).1 req').2 = (GET_product seed req').2.
Proof.
  intros c req'.
  assert (params_id req' ≠ target c) as Hne by (by intros [=]).
  split; [done|]. split; [reflexivity|].
  exact (write_keeps_other_ids seed c req' Hne).
Defined.

(** X5: an update never changes the identifiers of the store: whatever the
    request and its answer, the list of ids after a PUT is the list of ids
    before it, in the same order. *)
Theorem update_keeps_ids store req :
  id <$> (PUT_product store req).1 = id <$> store.
Proof.
  destruct (PUT_product_cases store req)
    as [[_ ->]|[(_ & msg & _ & ->)|(_ & _ & ->)]]; [done..|].
  destruct (updateHandler_effect store req)
    as [[-> _]|(i & old & Hold & Hid & ->)]; [done|].
  simpl. rewrite list_fmap_insert. apply list_insert_id.
  rewrite list_lookup_fmap, Hold. simpl. congruence.
Qed.

(** ** Get by id *)

(** X6: on a reachable store, get-by-id answers 200 with a product exactly
    when that product is stored under the path id, and 404 "Product not
    found" exactly when no stored product has the path id. *)
Theorem get_by_id_spec store req :
  reachable store →
  (∀ p, (GET_product store req).2 = {| status := 200; json := JProduct p |} ↔
        p ∈ store ∧ id p = params_id req) ∧
  ((GET_product store req).2 =
     {| status := 404; json := JError "Product not found" |} ↔
   ∀ p, p ∈ store → id p ≠ params_id req).
Proof.
  intros Hok%reachable_ok. unfold GET_product. simpl. split.
  - intros p. split.
    + unfold getHandler.
      destruct (list_find _ store) as [[i q]|] eqn:Hfind; simpl; [|done].
      intros [= ->]. apply list_find_Some in Hfind as (Hp & Hid & _).
      split; [by eapply list_elem_of_lookup_2|done].
    + intros [[i Hp]%list_elem_of_lookup_1 Hid].
      by apply (getHandler_present store req i).
  - split.
    + unfold getHandler.
      destruct (list_find _ store) as [[i q]|] eqn:Hfind; simpl; [done|].
      intros _. apply list_find_None in Hfind.
      by rewrite Forall_forall in Hfind.
    + apply getHandler_absent.
Qed.

Lemma get_by_id_spec_witness :
  reachable seed ∧
  ∃ p, name p = VStr "Smartphone" ∧
       (GET_product seed (request None "2" no_body)).2 =
         {| status := 200; json := JProduct p |}.
Proof.
  assert (reachable seed) as Hseed by apply reachable_seed.
  split; [done|]. eexists. split; [|
    apply (get_by_id_spec seed (request None "2" no_body) Hseed);
    split; [apply list_elem_of_further, list_elem_of_here|reflexivity]].
  reflexivity.
Defined.

(** ** Writes in a row *)

(** X7: on a reachable store, a delete answered 200 followed by a second
    authenticated delete of the same id answers 404 "Product not found" and
    leaves the store of the first delete as it is. *)
Theorem delete_twice store req store' res req2 :
  reachable store →
  DELETE_product store req = (store', res) → status res = 200%nat →
  authMiddleware req2 = Next req2 → params_id req2 = params_id req →
  DELETE_product store' req2 =
    (store', {| status := 404; json := JError "Product not found" |}).
Proof.
  intros Hok%reachable_ok Hdel Hstatus Ha2 Hid2.
  apply DELETE_product_deleted in Hdel as [_ Hdel]; [|done].
  apply deleteHandler_deleted in Hdel
    as (i & old & _ & Hold & Hid & -> & _); [|done].
  rewrite DELETE_product_pass by done.
  destruct (deleteHandler_cases (delete i store) req2)
    as [[-> _]|(j & q & Hq & Hidq & _)]; [done|].
  destruct (deleted_absent store i old q Hok Hold).
  - by eapply list_elem_of_lookup_2.
  - congruence.
Qed.

Lemma delete_twice_witness :
  let req := request bearer_secret_token "2" no_body in
  let r := DELETE_product seed req in
  reachable seed ∧ status r.2 = 200%nat ∧
  DELETE_product r.1 req =
    (r.1, {| status := 404; json := JError "Product not found" |}).
Proof.
  intros req r.
  assert (reachable seed) as Hseed by apply reachable_seed.
  split; [done|]. split; [reflexivity|].
  by apply (delete_twice seed req r.1 r.2 req Hseed).
Defined.

Lemma list_find_insert_first {A} (P : A → Prop) `{!∀ x, Decision (P x)}
    (l : list A) i y :
  Array.findIndex P l = Some i → P y →
  Array.findIndex P (<[i:=y]> l) = Some i ∧ <[i:=y]> l !! i = Some y.
Proof.
  intros (x & Hx & _ & Hfirst)%findIndex_Some Hy.
  assert (<[i:=y]> l !! i = Some y) as Hi.
  { apply list_lookup_insert_eq. by eapply lookup_lt_Some. }
  split; [|done]. apply findIndex_Some. exists y. split_and!; [done..|].
  intros j z Hz Hlt. rewrite list_lookup_insert_ne in Hz by lia. eauto.
Qed.

Lemma updatedProduct_again productId b old :
  updatedProduct productId b (updatedProduct productId b old) =
  updatedProduct productId b old.
Proof. unfold updatedProduct. simpl. by destruct (is_undefined _). Qed.

(** X8: an update is idempotent: a PUT answered 200, sent again to the
    store it produced, is answered with the same record and leaves that
    store as it is (in particular an absent inStock keeps the value that
    the first update kept).  This holds on every store. *)
Theorem update_twice store req store' res :
  PUT_product store req = (store', res) → status res = 200%nat →
  PUT_product store' req = (store', res).
Proof.
  intros Hput Hstatus.
  apply PUT_product_updated in Hput as (Ha & Hv & Hupdate); [|done].
  apply updateHandler_updated in Hupdate
    as (i & old & Hi & Hold & -> & -> & Hnone); [|done].
  rewrite PUT_product_pass by done.
  set (new := updatedProduct (params_id req) (body req) old).
  destruct (list_find_insert_first _ store i new Hi eq_refl) as [Hi' Hnew].
  destruct (validated_name req Hv) as [s Hs].
  unfold updateHandler, try_catch. rewrite Hi'. simpl.
  assert (Array.find
            (same_name_other (body_name (body req)) (params_id req))
            (<[i:=new]> store) = Some None) as ->.
  { apply find_None, Forall_insert; [done|].
    unfold same_name_other, same_name, new. simpl. rewrite Hs. simpl.
    by rewrite !bool_decide_eq_true_2. }
  simpl. rewrite Hnew. simpl. unfold new.
  by rewrite updatedProduct_again, list_insert_insert_eq.
Qed.

Lemma update_twice_witness :
  let req := request bearer_secret_token "3"
               {| body_name := VStr "Espresso Machine";
                  body_description := VUndefined;
                  body_price := VNum 120; body_category := VStr "kitchen";
                  body_inStock := VUndefined |} in
  let r := PUT_product seed req in
  status r.2 = 200%nat ∧ PUT_product r.1 req = r.
Proof.
  intros req r. split; [reflexivity|].
  rewrite (update_twice seed req r.1 r.2); [by destruct r|reflexivity..].
Defined.

(** X9: a create answered 201, directly followed by a create that passes
    the filters with the same name up to letter case (sent to the store
    the first one produced, whatever its other fields and generated id),
    is answered 409 "Product with this name already exists" and leaves
    that store as it is.  This holds on every store. *)
Theorem create_twice uuid store req store' res uuid' req' :
  POST_product uuid store req = (store', res) → status res = 201%nat →
  authMiddleware req' = Next req' → validateProduct req' = Next req' →
  same_name_ci (body_name (body req)) (body_name (body req')) →
  POST_product uuid' store' req' =
    (store', {| status := 409;
                json := JError "Product with this name already exists" |}).
Proof.
  intros Hpost Hstatus Ha' Hv' (s & t & Hs & Ht & Hst).
  apply POST_product_created in Hpost as (_ & _ & Hcreate); [|done].
  apply createHandler_created in Hcreate as (-> & _ & Hnone); [|done].
  rewrite POST_product_pass by done. unfold createHandler, try_catch.
  assert (∃ x, Array.find (same_name (body_name (body req')))
                 (store ++ [newProduct uuid (body req)]) = Some (Some x))
    as [x ->]; [|done].
  rewrite Ht. rewrite Hs in Hnone. clear -Hnone Hs Hst.
  induction store as [|p store IH]; simpl.
  - unfold same_name. simpl. rewrite Hs. simpl.
    rewrite bool_decide_eq_true_2 by done. by eexists.
  - apply Forall_cons in Hnone as [Hp Hnone].
    assert (same_name (VStr t) p = Some false) as ->.
    { revert Hp. unfold same_name. simpl. by rewrite Hst. }
    simpl. by apply IH.
Qed.

Lemma create_twice_witness :
  let kettle n := request bearer_secret_token ""
                    {| body_name := VStr n; body_description := VUndefined;
                       body_price := VNum 30; body_category := VStr "kitchen";
                       body_inStock := VUndefined |} in
  let r := POST_product "7c9e6679" seed (kettle "Kettle") in
  status r.2 = 201%nat ∧
  POST_product "0b1d2e3f" r.1 (kettle "KETTLE") =
    (r.1, {| status := 409;
             json := JError "Product with this name already exists" |}).
Proof.
  intros kettle r. split; [reflexivity|].
  apply (create_twice "7c9e6679" seed (kettle "Kettle") r.1 r.2);
    [reflexivity..|].
  exists "Kettle", "KETTLE". by split_and!.
Defined.

(** X10: on a reachable store an update may keep the name of the record it
    replaces, in any letter case: when the payload's name equals the name
    of the record stored under the path id up to letter case, an update
    that passes the filters is never answered 409; the record is replaced
    and returned with 200. *)
Theorem update_keeps_own_name store req i old :
  reachable store →
  authMiddleware req = Next req → validateProduct req = Next req →
  store !! i = Some old → id old = params_id req →
  same_name_ci (name old) (body_name (body req)) →
  PUT_product store req =
    (<[i := updatedProduct (params_id req) (body req) old]> store,
     {| status := 200;
        json := JProduct (updatedProduct (params_id req) (body req) old) |}).
Proof.
  intros Hok%reachable_ok Ha Hv Hold Hid [Hsome Hown]%same_name_ci_lower.
  rewrite PUT_product_pass by done.
  assert (is_Some (toLowerCase (body_name (body req)))) as Hname
    by by rewrite <- Hown.
  destruct (updateHandler_cases store req (ok_strings _ Hok) Hname)
    as [[_ Hnone]|(i' & old' & Hold' & Hid' & _ & Hcases)].
  { destruct (Hnone old); [by eapply list_elem_of_lookup_2|done]. }
  assert (i' = i) as ->.
  { eapply unique_index; [done..|]. by rewrite Hid, Hid'. }
  assert (old' = old) as -> by congruence.
  destruct Hcases as [[_ (p & [j Hp]%list_elem_of_lookup_1 & Hidp & Hpn)]|[-> _]];
    [|done].
  destruct Hidp. assert (j = i) as ->; [|congruence].
  apply (NoDup_lookup (lower_name <$> store) j i (lower_name old));
    [apply Hok|..].
  - rewrite list_lookup_fmap, Hp. simpl. congruence.
  - by rewrite list_lookup_fmap, Hold.
Qed.

Lemma update_keeps_own_name_witness :
  let req := request bearer_secret_token "1"
               {| body_name := VStr "LAPTOP"; body_description := VUndefined;
                  body_price := VNum 1100; body_category := VStr "electronics";
                  body_inStock := VBool false |} in
  reachable seed ∧ status (PUT_product seed req).2 = 200%nat.
Proof.
  intros req. assert (reachable seed) as Hseed by apply reachable_seed.
  split; [done|].
  erewrite (update_keeps_own_name seed req 0%nat);
    [done|done|reflexivity|reflexivity|reflexivity|reflexivity|].
  exists "Laptop", "LAPTOP". by split_and!.
Defined.

(** ** Stored products are validated *)

Lemma validated_fields req :
  validateProduct req = Next req →
  nonblank_string (body_name (body req)) = true ∧
  bad_price (body_price (body req)) = false ∧
  nonblank_string (body_category (body req)) = true.
Proof.
  unfold validateProduct. rewrite !blank_spec.
  destruct (nonblank_string (body_name _)); simpl; [|done].
  destruct (bad_price _); [done|].
  by destruct (nonblank_string (body_category _)).
Qed.

Lemma serve_valid store c :
  Forall valid_product store → Forall valid_product (serve store c).1.
Proof.
  intros Hvalid. destruct c as [uuid req|req|req]; simpl.
  - destruct (POST_product_cases uuid store req)
      as [[_ ->]|[(_ & msg & _ & ->)|(_ & Hv & ->)]]; [done..|].
    destruct (createHandler_effect uuid store req) as [[-> _]| ->]; [done|].
    apply Forall_app. split; [done|]. apply Forall_singleton.
    by apply validated_fields.
  - destruct (PUT_product_cases store req)
      as [[_ ->]|[(_ & msg & _ & ->)|(_ & Hv & ->)]]; [done..|].
    destruct (updateHandler_effect store req)
      as [[-> _]|(i & old & _ & _ & ->)]; [done|].
    apply Forall_insert; [done|]. by apply validated_fields.
  - destruct (DELETE_product_cases store req) as [[_ ->]|[_ ->]]; [done|].
    destruct (deleteHandler_effect store req)
      as [[-> _]|(i & old & _ & _ & ->)]; [done|].
    by apply Forall_delete.
Qed.

Lemma seed_valid : Forall valid_product seed.
Proof. by repeat constructor. Qed.

Lemma reachable_all_valid store :
  reachable store → Forall valid_product store.
Proof.
  induction 1 as [|store c _ IH _]; [apply seed_valid|by apply serve_valid].
Qed.

(** X11: every product of a reachable store is as [validateProduct] lets
    one in: its name and its category are strings that are not blank after
    trimming, and its price is a number that is not below zero.  No
    sequence of requests stores a product that validation would reject. *)
Theorem reachable_valid store p :
  reachable store → p ∈ store →
  (∃ s, name p = VStr s ∧ Str.trim s ≠ "") ∧
  (∃ n, price p = VNum n ∧ PrimFloat.ltb n 0 = false) ∧
  (∃ s, category p = VStr s ∧ Str.trim s ≠ "").
Proof.
  intros Hvalid%reachable_all_valid Hp.
  rewrite Forall_forall in Hvalid.
  destruct (Hvalid p Hp) as (Hname & Hprice & Hcategory).
  unfold nonblank_string, bad_price in *. split_and!.
  - destruct (name p); try done. eexists. split; [done|].
    intros Heq. by rewrite Heq in Hname.
  - destruct (price p); try done. eauto.
  - destruct (category p); try done. eexists. split; [done|].
    intros Heq. by rewrite Heq in Hcategory.
Qed.

Lemma reachable_valid_witness :
  let req := request bearer_secret_token ""
               {| body_name := VStr " Kettle "; body_description := VNull;
                  body_price := VNum 0; body_category := VStr "kitchen";
                  body_inStock := VStr "yes" |} in
  let store := (serve seed (Create "7c9e6679" req)).1 in
  reachable store ∧
  ∃ p, store !! 3%nat = Some p ∧ inStock p = VStr "yes" ∧
       ∃ n, price p = VNum n ∧ PrimFloat.ltb n 0 = false.
Proof.
  intros req store.
  assert (reachable store) as Hreach.
  { apply reachable_serve; [apply reachable_seed|].
    apply (bool_decide_unpack _). by vm_compute. }
  split; [done|]. eexists. split; [reflexivity|]. split; [reflexivity|].
  eapply (reachable_valid store _ Hreach).
  apply (list_elem_of_lookup_2 store 3%nat). reflexivity.
Defined.

(** ** No write answers 500 *)

Ltac in_list :=
  repeat first [apply list_elem_of_here | apply list_elem_of_further].

(** X12: on a reachable store the three writing routes never answer 500
    to a request that reaches them (one whose body [bodyParser.json()]
    accepted): neither filter throws and no handler reaches its [catch].
    Such a create answers 401, 400, 409 or 201; such an update 401, 400,
    404, 409 or 200; such a delete 401, 404 or 200. *)
Theorem write_statuses store c :
  reachable store →
  status (serve store c).2 ∈
    match c with
    | Create _ _ => [401; 400; 409; 201]
    | Update _ => [401; 400; 404; 409; 200]
    | Delete _ => [401; 404; 200]
    end%nat.
Proof.
  intros Hok%reachable_ok. pose proof (ok_strings _ Hok) as Hstr.
  destruct c as [uuid req|req|req]; simpl.
  - destruct (POST_product_cases uuid store req)
      as [[_ ->]|[(_ & msg & _ & ->)|(_ & Hv & ->)]]; simpl; [in_list..|].
    destruct (validated_name req Hv) as [s Hs].
    destruct (createHandler_cases uuid store req Hstr) as [[-> _]|[-> _]];
      [by rewrite Hs; eexists|simpl; in_list..].
  - destruct (PUT_product_cases store req)
      as [[_ ->]|[(_ & msg & _ & ->)|(_ & Hv & ->)]]; simpl; [in_list..|].
    destruct (validated_name req Hv) as [s Hs].
    destruct (updateHandler_cases store req Hstr)
      as [[-> _]|(i & old & _ & _ & _ & [[-> _]|[-> _]])];
      [by rewrite Hs; eexists|simpl; in_list..].
  - destruct (DELETE_product_cases store req) as [[_ ->]|[_ ->]];
      simpl; [in_list|].
    destruct (deleteHandler_cases store req)
      as [[-> _]|(i & old & _ & _ & _ & ->)]; simpl; in_list.
Qed.

Lemma write_statuses_witness :
  let c := Update (request bearer_secret_token "9" no_body) in
  reachable seed ∧ status (serve seed c).2 = 400%nat ∧
  status (serve seed c).2 ∈ [401; 400; 404; 409; 200]%nat.
Proof.
  intros c. assert (reachable seed) as Hseed by apply reachable_seed.
  split; [done|]. split; [reflexivity|].
  exact (write_statuses seed c Hseed).
Defined.

(** ** What a listing holds *)

Lemma slice_sublist {A} (l : list A) a b : Array.slice l a b `sublist_of` l.
Proof.
  unfold Array.slice. etrans; [apply sublist_take|apply sublist_drop].
Qed.

(** X13: the page of a listing is a sublist of the store: every listed
    product is stored, none is repeated beyond the store's own repeats, and
    the order of the store is kept; [total] counts the working set, which
    is no longer than the store and no shorter than the page.  This holds
    for every page and limit, negative ones included. *)
Theorem listing_sublist store q F :
  filtered store q = Some F →
  products (paginate F q) `sublist_of` store ∧
  (length (products (paginate F q)) ≤ total (paginate F q))%nat ∧
  (total (paginate F q) ≤ length store)%nat.
Proof.
  intros ->%filtered_passes. simpl.
  pose proof (sublist_filter (λ p, passes q p) store) as Hfilter.
  pose proof (slice_sublist (filter (λ p, passes q p) store)
                (startIndex q) (endIndex q)) as Hslice.
  split_and!.
  - by etrans.
  - by apply sublist_length.
  - by apply sublist_length.
Qed.

Lemma listing_sublist_witness :
  let q := {| query_search := Some "o"; query_category := None;
              query_inStock := None; query_page := Some "1";
              query_limit := Some "-1" |} in
  ∃ F, filtered seed q = Some F ∧ length F = 3%nat ∧
       length (products (paginate F q)) = 2%nat ∧
       products (paginate F q) `sublist_of` seed.
Proof.
  intros q. eexists. split; [reflexivity|]. split; [reflexivity|].
  split; [reflexivity|].
  apply (listing_sublist seed q). reflexivity.
Defined.

Lemma slice_length {A} (l : list A) a b :
  (0 ≤ a)%Z → (0 ≤ b)%Z →
  Z.of_nat (length (Array.slice l a b)) =
  Z.max 0 (Z.min b (Z.of_nat (length l)) - a).
Proof.
  intros Ha Hb. rewrite slice_range, range_take_drop by done.
  rewrite length_take, length_drop. lia.
Qed.

(** X14: with a page [p >= 1] and a limit [l >= 1], the page of a listing
    holds [min(l, |F| - (p-1)*l)] products, and none when that is negative:
    never more than [limit], exactly [limit] on every page before the last,
    the remainder on the last, and nothing past the end. *)
Theorem page_length F q :
  (1 ≤ page_of q)%Z → (1 ≤ limit_of q)%Z →
  Z.of_nat (length (products (paginate F q))) =
  Z.max 0 (Z.min (limit_of q)
             (Z.of_nat (length F) - (page_of q - 1) * limit_of q)).
Proof.
  intros Hp Hl. simpl. unfold startIndex, endIndex.
  rewrite slice_length by nia. nia.
Qed.

Lemma page_length_witness :
  let q := {| query_search := None; query_category := None;
              query_inStock := None; query_page := Some "2";
              query_limit := Some "2" |} in
  (1 ≤ page_of q)%Z ∧ (1 ≤ limit_of q)%Z ∧
  length (products (paginate seed q)) = 1%nat.
Proof.
  intros q. assert (1 ≤ page_of q)%Z as Hp by (by vm_compute).
  assert (1 ≤ limit_of q)%Z as Hl by (by vm_compute).
  split; [done|]. split; [done|].
  pose proof (page_length seed q Hp Hl) as H.
  apply Nat2Z.inj. rewrite H. reflexivity.
Defined.

Lemma is_Some_if {A} (b : bool) (x : A) :
  is_Some (if b then Some x else None) ↔ b = true.
Proof. destruct b; split; done. Qed.

(** X15: with a page [p >= 1] and a limit [l >= 1], both below 2^53, the
    [next] link is present exactly when the page after this one, with the
    same limit, holds a product, and the [previous] link exactly when
    [p >= 2]; the links name the pages [p + 1] and [p - 1] with the same
    limit. *)
Theorem page_links F q q' :
  (1 ≤ page_of q)%Z → (1 ≤ limit_of q)%Z →
  safe_integer (page_of q) → safe_integer (limit_of q) →
  page_of q' = (page_of q + 1)%Z → limit_of q' = limit_of q →
  (is_Some (next (paginate F q)) ↔ products (paginate F q') ≠ []) ∧
  (is_Some (previous (paginate F q)) ↔ (2 ≤ page_of q)%Z) ∧
  (∀ k, next (paginate F q) = Some k →
        link_page k = page_of q' ∧ link_limit k = limit_of q) ∧
  (∀ k, previous (paginate F q) = Some k →
        link_page k = (page_of q - 1)%Z ∧ link_limit k = limit_of q).
Proof.
  intros Hp Hl _ _ Hp' Hl'.
  assert (products (paginate F q') ≠ [] ↔
          (endIndex q < Z.of_nat (length F))%Z) as ->.
  { rewrite <- length_zero_iff_nil.
    pose proof (slice_length F (startIndex q') (endIndex q')) as H.
    unfold startIndex, endIndex in *. rewrite Hp', Hl' in H. simpl.
    unfold startIndex, endIndex. rewrite Hp', Hl'.
    split; intros ?; nia. }
  simpl. split_and!.
  - by rewrite is_Some_if, Z.ltb_lt.
  - rewrite is_Some_if, Z.ltb_lt. unfold startIndex. nia.
  - intros k. destruct (_ <? _)%Z; [|done]. intros [= <-]. simpl.
    split; congruence.
  - intros k. destruct (_ <? _)%Z; [|done]. by intros [= <-].
Qed.

Lemma page_links_witness :
  let query p := {| query_search := None; query_category := None;
                    query_inStock := None; query_page := Some p;
                    query_limit := Some "2" |} in
  (1 ≤ page_of (query "1"))%Z ∧ (1 ≤ limit_of (query "1"))%Z ∧
  safe_integer (page_of (query "1")) ∧ safe_integer (limit_of (query "1")) ∧
  is_Some (next (paginate seed (query "1"))) ∧
  products (paginate seed (query "2")) ≠ [].
Proof.
  intros query. assert (1 ≤ page_of (query "1"))%Z as Hp by (by vm_compute).
  assert (1 ≤ limit_of (query "1"))%Z as Hl by (by vm_compute).
  assert (safe_integer (page_of (query "1"))) as Hsp by (by vm_compute).
  assert (safe_integer (limit_of (query "1"))) as Hsl by (by vm_compute).
  split; [done|]. split; [done|]. split; [done|]. split; [done|].
  split; [by eexists|].
  apply (page_links seed (query "1") (query "2") Hp Hl Hsp Hsl);
    [done..|by eexists].
Defined.

Lemma page_take_drop F q :
  (1 ≤ page_of q)%Z → (1 ≤ limit_of q)%Z →
  products (paginate F q) =
  take (Z.to_nat (limit_of q))
       (drop (Z.to_nat (page_of q - 1) * Z.to_nat (limit_of q)) F).
Proof.
  intros Hp Hl. simpl. unfold startIndex, endIndex.
  rewrite slice_range, range_take_drop by nia. f_equal; [nia|f_equal; nia].
Qed.

(** X16: consecutive pages neither overlap nor skip a product: for a limit
    [l >= 1], the pages 1, 2, ..., n of a working set [F], one after the
    other, are the first [n * l] products of [F]; they are the whole of [F]
    as soon as [n * l] reaches its length. *)
Theorem pages_tile F (qs : list Query) l :
  (1 ≤ l)%Z →
  (∀ k q, qs !! k = Some q →
          page_of q = (Z.of_nat k + 1)%Z ∧ limit_of q = l) →
  concat ((λ q, products (paginate F q)) <$> qs) =
    take (length qs * Z.to_nat l) F ∧
  ((length F ≤ length qs * Z.to_nat l)%nat →
   concat ((λ q, products (paginate F q)) <$> qs) = F).
Proof.
  intros Hl Hqs.
  assert (concat ((λ q, products (paginate F q)) <$> qs) =
          take (length qs * Z.to_nat l) F) as Htake.
  { induction qs as [|q qs IH] using rev_ind; [done|].
    rewrite fmap_app, concat_app, IH.
    - destruct (Hqs (length qs) q) as [Hp Hlq].
      { by rewrite lookup_app_r, Nat.sub_diag by lia. }
      change (concat ((λ q0, products (paginate F q0)) <$> [q]))
        with (products (paginate F q) ++ []).
      rewrite app_nil_r, page_take_drop by lia. rewrite Hp, Hlq.
      replace (Z.to_nat (Z.of_nat (length qs) + 1 - 1)) with (length qs) by lia.
      rewrite take_take_drop, length_app. simpl. f_equal. lia.
    - intros k q' Hk. apply Hqs. by apply lookup_app_l_Some. }
  split; [done|]. intros Hlen. rewrite Htake. by apply take_ge.
Qed.

Lemma pages_tile_witness :
  let query p := {| query_search := None; query_category := None;
                    query_inStock := None; query_page := Some p;
                    query_limit := Some "2" |} in
  concat ((λ q, products (paginate seed q)) <$> [query "1"; query "2"]) = seed.
Proof.
  intros query.
  apply (pages_tile seed [query "1"; query "2"] 2); [lia| |simpl; lia].
  intros [|[|k]] q; simpl; intros [= <-]; by vm_compute.
Defined.

(** ** The filters of a listing *)

(** X17: under an [inStock] parameter every listed product has the boolean
    [inStock] the parameter names: [true] for the value ["true"], [false]
    for every other value, the empty string included.  A product whose
    stored [inStock] is not a boolean (create and update store any value)
    is in no listing that carries an [inStock] parameter. *)
Theorem stock_filter_spec store q F s p :
  filtered store q = Some F → query_inStock q = Some s → p ∈ F →
  inStock p = VBool (String.eqb s "true").
Proof.
  intros ->%filtered_passes Hs [Hp _]%list_elem_of_filter.
  unfold passes, passes_stock in Hp. rewrite Hs in Hp.
  apply andb_prop_elim in Hp as [_ Hp]. apply bool_decide_unpack in Hp.
  unfold stock_callback in Hp. destruct (inStock p) as [| |b| | | |]; try done.
  injection Hp as Hp. by apply bool_decide_eq_true in Hp as ->.
Qed.

Lemma stock_filter_spec_witness :
  let q := {| query_search := None; query_category := None;
              query_inStock := Some ""; query_page := None;
              query_limit := None |} in
  ∃ F p, filtered seed q = Some F ∧ F = [p] ∧ name p = VStr "Coffee Maker" ∧
         inStock p = VBool false.
Proof.
  intros q. eexists _, _. split; [reflexivity|]. split; [reflexivity|].
  split; [reflexivity|].
  apply (stock_filter_spec seed q _ "" _ eq_refl eq_refl).
  apply list_elem_of_here.
Defined.

Lemma toLowerCase_empty s s' :
  Str.toLowerCase s = Str.toLowerCase s' →
  String.eqb s "" = String.eqb s' "".
Proof. by destruct s, s'. Qed.

Lemma filter_if_lower callback param param' l :
  (∀ s s' p, Str.toLowerCase s = Str.toLowerCase s' →
             callback s p = callback s' p) →
  Str.toLowerCase <$> param = Str.toLowerCase <$> param' →
  filter_if param callback l = filter_if param' callback l.
Proof.
  intros Hcb Hlower. unfold filter_if.
  destruct param as [s|], param' as [s'|]; try done.
  injection Hlower as Hlower.
  rewrite (toLowerCase_empty s s' Hlower). destruct (String.eqb s' ""); [done|].
  induction l as [|p l IH]; simpl; [done|]. by rewrite (Hcb s s'), IH.
Qed.

(** X18: the [search] and [category] parameters are read without regard to
    letter case: two list requests whose [search] parameters are both
    missing or equal up to letter case, whose [category] parameters are
    both missing or equal up to letter case, and whose other parameters
    are the same, get the same answer on every store. *)
Theorem list_ignores_case store req req' :
  Str.toLowerCase <$> query_search (query req) =
    Str.toLowerCase <$> query_search (query req') →
  Str.toLowerCase <$> query_category (query req) =
    Str.toLowerCase <$> query_category (query req') →
  query_inStock (query req) = query_inStock (query req') →
  query_page (query req) = query_page (query req') →
  query_limit (query req) = query_limit (query req') →
  GET_products store req = GET_products store req'.
Proof.
  intros Hs Hc Hi Hp Hl.
  assert (filtered store (query req) = filtered store (query req')) as Hf.
  { unfold filtered. rewrite Hi.
    rewrite (filter_if_lower search_callback _ _ store
               ltac:(by intros s s' p Hss; unfold search_callback; rewrite Hss)
               Hs).
    destruct (filter_if _ search_callback store) as [l1|]; [|done].
    cbn [mbind option_bind].
    by rewrite (filter_if_lower category_callback _ _ l1
                  ltac:(by intros s s' p Hss; unfold category_callback;
                           rewrite Hss)
                  Hc). }
  unfold GET_products, listHandler. simpl. rewrite Hf.
  destruct (filtered store (query req')) as [F|]; [|done].
  unfold paginate, startIndex, endIndex, page_of, limit_of.
  by rewrite Hp, Hl.
Qed.

Lemma list_ignores_case_witness :
  let query s c := request_query
                     {| query_search := s; query_category := c;
                        query_inStock := None; query_page := None;
                        query_limit := None |} in
  GET_products seed (query (Some "LAPTOP") (Some "Electronics")) =
    GET_products seed (query (Some "laptop") (Some "ELECTRONICS")) ∧
  GET_products seed (query None (Some "Kitchen")) =
    GET_products seed (query None (Some "KITCHEN")) ∧
  ∃ r p, (GET_products seed (query None (Some "Kitchen"))).2 =
           {| status := 200; json := JListing r |} ∧
         products r = [p] ∧ id p = "3".
Proof.
  intros query. split_and!.
  - by apply (list_ignores_case seed).
  - by apply (list_ignores_case seed).
  - by eexists _, _.
Defined.

(** ** When a listing answers 500 *)

Lemma filter_throws {A} (f : A → option bool) l x :
  x ∈ l → f x = None → Array.filter f l = None.
Proof.
  induction 1 as [x l|x y l _ IH]; simpl; intros Hx.
  - by rewrite Hx.
  - destruct (f y); [|done]. simpl. by rewrite IH.
Qed.

(** X19: a search over a store that holds a product whose description is
    not a string is answered 500 "Failed to retrieve products" as soon as
    that product's name does not contain the search text: the search then
    calls [toLowerCase] on the description.  Create and update store such
    descriptions, validation not looking at the field. *)
Theorem search_throws store req s p n :
  query_search (query req) = Some s → s ≠ "" →
  p ∈ store → name p = VStr n →
  Str.includes (Str.toLowerCase n) (Str.toLowerCase s) = false →
  toLowerCase (description p) = None →
  GET_products store req =
    (store, {| status := 500; json := JError "Failed to retrieve products" |}).
Proof.
  intros Hs Hne Hp Hn Hincl Hd.
  unfold GET_products, listHandler, filtered. simpl. rewrite Hs. simpl.
  destruct (String.eqb_spec s "") as [|_]; [done|].
  rewrite (filter_throws _ store p); [done..|].
  unfold search_callback. rewrite Hn. simpl. by rewrite Hincl, Hd.
Qed.

Lemma search_throws_witness :
  let create := request bearer_secret_token ""
                  {| body_name := VStr "Kettle"; body_description := VNum 5;
                     body_price := VNum 30; body_category := VStr "kitchen";
                     body_inStock := VUndefined |} in
  let store := (serve seed (Create "7c9e6679" create)).1 in
  let req := request_query
               {| query_search := Some "smart"; query_category := None;
                  query_inStock := None; query_page := None;
                  query_limit := None |} in
  reachable store ∧
  (GET_products seed req).2.(status) = 200%nat ∧
  (GET_products store req).2.(status) = 500%nat.
Proof.
  intros create store req. split.
  { apply reachable_serve; [apply reachable_seed|].
    apply (bool_decide_unpack _). by vm_compute. }
  split; [reflexivity|].
  rewrite (search_throws store req "smart"
             (newProduct "7c9e6679" (body create)) "Kettle");
    [reflexivity|reflexivity|done| |reflexivity..].
  apply (list_elem_of_lookup_2 store 3%nat). reflexivity.
Defined.

(** X20: on a reachable store a list request whose parameters are strings
    (no repeated or bracketed key) and that has no [search] parameter (or
    an empty one) is always answered 200: stored names and categories are
    strings, so neither the category filter nor the stock filter throws,
    whatever descriptions the store holds. *)
Theorem list_without_search store req :
  reachable store →
  query_search (query req) = None ∨ query_search (query req) = Some "" →
  ∃ F, filtered store (query req) = Some F ∧
       GET_products store req =
         (store, {| status := 200;
                    json := JListing (paginate F (query req)) |}).
Proof.
  intros Hreach Hsearch.
  assert (Forall (λ p, is_Some (toLowerCase (category p))) store) as Hcat.
  { eapply Forall_impl; [by apply reachable_all_valid|].
    intros p (_ & _ & Hc). by destruct (category p). }
  assert (is_Some (filtered store (query req))) as [F HF].
  { unfold filtered.
    assert (filter_if (query_search (query req)) search_callback store =
            Some store) as -> by (by destruct Hsearch as [-> | ->]).
    simpl.
    destruct (filter_if_total (query_category (query req)) category_callback
                store) as [l2 H2].
    { intros s. eapply Forall_impl; [done|]. intros p [c Hc].
      unfold category_callback. rewrite Hc. by eexists. }
    rewrite H2. simpl. destruct (query_inStock _); [|by eexists].
    apply filter_total, Forall_forall. intros p _. by eexists. }
  exists F. split; [done|]. unfold GET_products, listHandler. simpl.
  by rewrite HF.
Qed.

Lemma list_without_search_witness :
  let create := request bearer_secret_token ""
                  {| body_name := VStr "Kettle"; body_description := VNum 5;
                     body_price := VNum 30; body_category := VStr "kitchen";
                     body_inStock := VUndefined |} in
  let store := (serve seed (Create "7c9e6679" create)).1 in
  let req := request_query
               {| query_search := None; query_category := Some "KITCHEN";
                  query_inStock := None; query_page := None;
                  query_limit := None |} in
  reachable store ∧
  ∃ F, filtered store (query req) = Some F ∧ length F = 2%nat ∧
       (GET_products store req).2.(status) = 200%nat.
Proof.
  intros create store req.
  assert (reachable store) as Hreach.
  { apply reachable_serve; [apply reachable_seed|].
    apply (bool_decide_unpack _). by vm_compute. }
  split; [done|].
  destruct (list_without_search store req Hreach) as (F & HF & Hget);
    [by left|].
  exists F. split; [done|]. split; [|by rewrite Hget].
  assert (Some F = Some (filter (λ p, passes (query req) p) store)) as [= ->];
    [|reflexivity].
  rewrite <- HF. reflexivity.
Defined.

(** X21: a list request without filters and without a usable page or limit
    gets the first ten products of the store, on every store: [search] and
    [category] missing or empty, [inStock] missing, [page] and [limit]
    missing, unparsable or zero.  [total] is the size of the store, the
    page is 1, the limit 10, there is no [previous] link, and the [next]
    link names page 2 exactly when the store holds more than ten
    products. *)
Theorem list_defaults store req :
  let q := query req in
  query_search q = None ∨ query_search q = Some "" →
  query_category q = None ∨ query_category q = Some "" →
  query_inStock q = None →
  page_of q = 1%Z → limit_of q = 10%Z →
  GET_products store req =
    (store,
     {| status := 200;
        json := JListing
          {| next := if (10 <? length store)%nat
                     then Some {| link_page := 2; link_limit := 10 |}
                     else None;
             previous := None;
             products := take 10 store;
             total := length store;
             page := 1;
             limit := 10 |} |}).
Proof.
  intros q Hs Hc Hi Hp Hl.
  assert (filtered store q = Some store) as HF.
  { unfold filtered. rewrite Hi.
    by destruct Hs as [-> | ->], Hc as [-> | ->]. }
  unfold GET_products, listHandler. simpl. fold q. rewrite HF.
  unfold paginate, startIndex, endIndex. rewrite Hp, Hl.
  change ((1 - 1) * 10)%Z with 0%Z. change (1 * 10)%Z with 10%Z.
  rewrite slice_range, range_take_drop by lia.
  replace (10 <? Z.of_nat (length store))%Z with (10 <? length store)%nat.
  - done.
  - destruct (Z.ltb_spec 10 (Z.of_nat (length store)));
      destruct (Nat.ltb_spec 10 (length store)); try done; lia.
Qed.

Lemma list_defaults_witness :
  let req := request_query
               {| query_search := Some ""; query_category := None;
                  query_inStock := None; query_page := Some "0";
                  query_limit := Some "many" |} in
  ∃ r, GET_products seed req =
         (seed, {| status := 200; json := JListing r |}) ∧
       products r = seed ∧ total r = 3%nat ∧ next r = None.
Proof.
  intros req. eexists. split.
  - apply (list_defaults seed req); [by right|by left|reflexivity..].
  - by split_and!.
Defined.
